(** * Verification of the MPI log analyser ([Task 1/t1.py])

    A shallow embedding of the coordinator/worker log analyser: the
    partitioner [chunk_list], the worker logic [analyse_files], the additive
    merge [dict_add], file-list resolution and the coordinator branch of
    [main].

    Conventions.
    - Python [str] is [string]; a character is a code point below 256.
    - Python [int] is [Z].
    - A [Counter] / [dict] from tag to count is a [gmap string Z]; a key that
      was never written is absent, exactly as in the Python object.
    - Exceptions, in-place mutation of a local and the coordinator's output are
      threaded through the small monad [Py].
    - A reading of [time.time()] is the rational [Q] its float denotes; the
      program only subtracts two readings, compares the difference with zero
      and divides by it. *)

From Stdlib Require Import ZArith QArith String Ascii List Permutation Lia.
From stdpp Require Import base option list gmap strings list_numbers pretty sorting.

Local Open Scope string_scope.
Local Open Scope list_scope.
Local Open Scope Z_scope.

(** ** Python string primitives used by the source *)

Module PyStr.

Definition newline : ascii := "010"%char.

(** [str.isspace] on one character, for code points below 256. *)
Definition isspace (c : ascii) : bool :=
  let n := N_of_ascii c in
  ((9 <=? n) && (n <=? 13) || (28 <=? n) && (n <=? 32)
   || (n =? 133) || (n =? 160))%N.

Fixpoint lstrip (s : string) : string :=
  match s with
  | String c s' => if isspace c then lstrip s' else s
  | EmptyString => EmptyString
  end.

Fixpoint rstrip (s : string) : string :=
  match s with
  | String c s' =>
      match rstrip s' with
      | EmptyString => if isspace c then EmptyString else String c EmptyString
      | r => String c r
      end
  | EmptyString => EmptyString
  end.

(** [s.strip()] *)
Definition strip (s : string) : string := rstrip (lstrip s).

(** [s.startswith(p)] *)
Fixpoint startswith (s p : string) : bool :=
  match p, s with
  | EmptyString, _ => true
  | String _ _, EmptyString => false
  | String a p', String b s' => if Ascii.eqb a b then startswith s' p' else false
  end.

(** [s.endswith(p)] *)
Definition endswith (s p : string) : bool :=
  let n := String.length s in
  let k := String.length p in
  if (k <=? n)%nat then String.eqb (substring (n - k) k s) p else false.

(** [sub in s] *)
Fixpoint contains (sub s : string) : bool :=
  startswith s sub ||
  match s with
  | String _ s' => contains sub s'
  | EmptyString => false
  end.

(** [s.replace(old, new)] for a non-empty [old]: occurrences are replaced
    left to right without overlap.  [skip] counts the characters of an
    occurrence of [old] that is being consumed. *)
Fixpoint replace_from (skip : nat) (old new s : string) : string :=
  match s with
  | EmptyString => EmptyString
  | String c s' =>
      match skip with
      | S k => replace_from k old new s'
      | O =>
          if startswith s old
          then (new ++ replace_from (String.length old - 1) old new s')%string
          else String c (replace_from O old new s')
      end
  end.

Definition replace (s old new : string) : string := replace_from O old new s.

(** [str(i)] for an integer. *)
Definition str (i : Z) : string := pretty i.

End PyStr.

(** ** The line pattern [LOG_REGEX]

    The pattern is applied with [match], so it is anchored at the start of the
    line: an opening bracket, a lazy group, a closing bracket, optional
    whitespace, a second bracketed lazy group, optional whitespace and a greedy
    rest.  Only group 2 is read by the source.  The dot excludes the newline;
    the regex engine extends group 1 past a closing bracket whenever the
    remainder of the pattern cannot match after it. *)

Module LogRegex.

Definition pattern : string := "\[(.*?)\]\s*\[(.*?)\]\s*(.*)".

(** Group 2: the shortest run of non-newline characters ending at a closing
    bracket. *)
Fixpoint lazy_group (s : string) : option string :=
  match s with
  | EmptyString => None
  | String c s' =>
      if Ascii.eqb c "]" then Some EmptyString
      else if Ascii.eqb c PyStr.newline then None
      else String c <$> lazy_group s'
  end.

(** What follows the bracket closing group 1: optional whitespace, then the
    second bracketed group.  The trailing whitespace and rest both match the
    empty string, so they never fail. *)
Definition after_group1 (s : string) : option string :=
  match PyStr.lstrip s with
  | String c s' => if Ascii.eqb c "[" then lazy_group s' else None
  | EmptyString => None
  end.

(** Group 1 grows one character at a time; at each closing bracket the rest
    of the pattern is tried first. *)
Fixpoint scan_group1 (s : string) : option string :=
  match s with
  | EmptyString => None
  | String c s' =>
      let longer := if Ascii.eqb c PyStr.newline then None else scan_group1 s' in
      if Ascii.eqb c "]"
      then match after_group1 s' with
           | Some g2 => Some g2
           | None => longer
           end
      else longer
  end.

(** [m = LOG_REGEX.match(line)] followed by [m.group(2)]; [None] when the
    line does not match. *)
Definition match_group2 (line : string) : option string :=
  match line with
  | String c s => if Ascii.eqb c "[" then scan_group1 s else None
  | EmptyString => None
  end.

End LogRegex.

(** ** Exceptions and the [Py] monad *)

(** The exceptions the modelled code can meet; every one of them is a subclass
    of Python's [Exception]. *)
Inductive PyException : Type :=
| OSError
| UnicodeError
| IndexError
| ZeroDivisionError.

(** How a call ends: it returns, it raises, or it waits for ever on a receive
    that no send matches. *)
Inductive Outcome (A : Type) : Type :=
| Returned (a : A)
| Raised (e : PyException)
| Blocked.
Arguments Returned {A} a.
Arguments Raised {A} e.
Arguments Blocked {A}.

(** A computation over a mutable state [S].  The state survives an exception,
    as an object mutated inside a [try] block does. *)
Definition Py (S A : Type) : Type := S -> S * Outcome A.

Section PyMonad.
Context {S : Type}.

Definition ret {A} (a : A) : Py S A := fun s => (s, Returned a).

Definition bind {A B} (m : Py S A) (k : A -> Py S B) : Py S B :=
  fun s =>
    match m s with
    | (s', Returned a) => k a s'
    | (s', Raised e) => (s', Raised e)
    | (s', Blocked) => (s', Blocked)
    end.

Definition raise {A} (e : PyException) : Py S A := fun s => (s, Raised e).

Definition get : Py S S := fun s => (s, Returned s).

Definition modify (f : S -> S) : Py S unit := fun s => (f s, Returned tt).

(** [try: body / except Exception: handler] *)
Definition try_except {A} (body : Py S A) (handler : PyException -> Py S A) : Py S A :=
  fun s =>
    match body s with
    | (s', Raised e) => handler e s'
    | r => r
    end.

(** Lift a call whose own state is private. *)
Definition call {A} (o : Outcome A) : Py S A := fun s => (s, o).

End PyMonad.

Notation "'let*' x ':=' m 'in' k" := (bind m (fun x => k))
  (at level 10, x name, m at level 100, k at level 200, only parsing).
Notation "'let*' ' p ':=' m 'in' k" := (bind m (fun x => match x with p => k end))
  (at level 10, p pattern, m at level 100, k at level 200, only parsing).
Notation "m '>>' k" := (bind m (fun _ => k))
  (at level 70, right associativity, only parsing).

(** [for x in l: body x] *)
Fixpoint for_each {S B} (l : list B) (body : B -> Py S unit) : Py S unit :=
  match l with
  | [] => ret tt
  | x :: l' => body x >> for_each l' body
  end.

(** Run a computation from an initial state and keep what it returns. *)
Definition result_of {S A} (m : Py S A) (s : S) : Outcome A := snd (m s).

(** ** The file system

    What [open(fname, 'r', errors='ignore')] followed by iteration over the
    handle gives: the lines that are yielded, and the exception that ends the
    read, if any.  A file that cannot be opened yields no line and fails. *)
Record FileRead : Type := mkFileRead {
  lines : list string;
  failure : option PyException
}.

Definition readable (f : FileRead) : Prop := failure f = None.
Definition unreadable (f : FileRead) : Prop := lines f = [] /\ failure f <> None.

(** ** Counters *)

Abbreviation Counter := (gmap string Z).

(** [c.get(k, 0)], also [c[k]] on a [Counter], whose missing keys read 0. *)
Definition get0 (c : Counter) (k : string) : Z := default 0 (c !! k).

(** [counts[k] += 1] *)
Definition incr (k : string) (counts : Counter) : Counter :=
  <[k := get0 counts k + 1]> counts.

Definition LOG_LEVELS : list string := ["DEBUG"; "ERROR"; "INFO"; "WARN"].
Definition ERRORS_TAG : string := "__errors__".

(** [x in l] for a list of strings. *)
Definition py_in (x : string) (l : list string) : bool := bool_decide (x ∈ l).

Section Analyser.
(** The file system is read-only during a run. *)
Variable fs : string -> FileRead.

(** [with open(fname, ...) as fh: for line in fh: body line] *)
Definition with_open_lines {S} (fname : string) (body : string -> Py S unit) : Py S unit :=
  for_each (lines (fs fname)) body >>
  match failure (fs fname) with
  | None => ret tt
  | Some e => raise e
  end.

(** Body of the inner loop of [analyse_files], lines 44-49. *)
Definition count_line (line : string) : Py Counter unit :=
  match LogRegex.match_group2 line with
  | None => ret tt
  | Some g2 =>
      let level := PyStr.strip g2 in
      if py_in level LOG_LEVELS then modify (incr level) else ret tt
  end.

(** Body of the outer loop, lines 41-51. *)
Definition analyse_one (fname : string) : Py Counter unit :=
  try_except (with_open_lines fname count_line)
             (fun _ => modify (incr ERRORS_TAG)).

(** [analyse_files(file_list)], lines 37-52. *)
Definition analyse_files (file_list : list string) : Outcome Counter :=
  result_of (for_each file_list analyse_one >> get) ∅.

(** [read_manifest(path)], lines 20-28; the state is the local [files]. *)
Definition read_manifest (path : string) : Outcome (list string) :=
  result_of
    (with_open_lines path
       (fun line =>
          let s := PyStr.strip line in
          if String.eqb s "" then ret tt else modify (fun files => (files ++ [s])%list))
     >> get) [].
End Analyser.

(** [build_from_pattern(pattern, count)], lines 30-35. *)
Definition build_from_pattern (pattern : string) (count : Z) : list string :=
  (fun i => PyStr.replace pattern "{n}" (PyStr.str i)) <$> seqZ 1 count.

(** ** The partitioner *)

(** [lst[start:stop]] with Python's treatment of negative and out-of-range
    bounds. *)
Definition slice_bound (len i : Z) : Z :=
  if i <? 0 then Z.max 0 (len + i) else Z.min i len.

Definition py_slice {A} (lst : list A) (start stop : Z) : list A :=
  let len := Z.of_nat (length lst) in
  let lo := slice_bound len start in
  let hi := slice_bound len stop in
  take (Z.to_nat (hi - lo)) (drop (Z.to_nat lo) lst).

(** [lst[i]]: [IndexError] out of range, negative indices count from the end. *)
Definition py_index {A} (lst : list A) (i : Z) : Outcome A :=
  let len := Z.of_nat (length lst) in
  let j := if i <? 0 then len + i else i in
  if (0 <=? j) && (j <? len)
  then match lst !! Z.to_nat j with
       | Some x => Returned x
       | None => Raised IndexError
       end
  else Raised IndexError.

(** [range(a, b)] *)
Definition range (a b : Z) : list Z := seqZ a (b - a).

(** The loop of [chunk_list], lines 62-65: the state is [(start, chunks)]. *)
Definition chunk_step {A} (lst : list A) (q r : Z)
    (st : Z * list (list A)) (i : Z) : Z * list (list A) :=
  let '(start, chunks) := st in
  let stop := start + q + (if i <? r then 1 else 0) in
  (stop, (chunks ++ [py_slice lst start stop])%list).

(** [chunk_list(lst, n_parts)], lines 54-66. *)
Definition chunk_list {A} (lst : list A) (n_parts : Z) : list (list A) :=
  if n_parts <=? 0 then []
  else
    let L := Z.of_nat (length lst) in
    let q := L / n_parts in
    let r := L mod n_parts in
    snd (foldl (chunk_step lst q r) (0, []) (range 0 n_parts)).

(** ** The additive merge *)

(** [dict_add(a, b)], lines 68-70: [a] is updated in place, once per item of
    [b]; the function returns the updated [a]. *)
Definition dict_add (a b : Counter) : Counter :=
  map_fold (fun k v acc => <[k := get0 acc k + v]> acc) a b.

(** ** The coordinator and the workers *)

(** The parsed command line ([parse_args], lines 12-18). *)
Record Args : Type := mkArgs {
  input : string;
  count : Z;
  no_seq : bool
}.

(** The readings of [time.time()] at its four call sites on the coordinator:
    lines 116 and 118 around the baseline, lines 124 and 130 around the timed
    section. *)
Record Clock : Type := mkClock {
  baseline_start : Q;
  baseline_stop : Q;
  parallel_start : Q;
  parallel_stop : Q
}.

(** [a / b] on floats: division by zero raises. *)
Definition py_truediv (a b : Q) : Outcome Q :=
  if Qeq_bool b 0 then Raised ZeroDivisionError else Returned (a / b)%Q.

(** [0 < d] on floats. *)
Definition positive (d : Q) : bool := negb (Qle_bool d 0).

(** What the coordinator does to the outside world, in order: what it prints
    and the messages it exchanges.  The lines that print a duration or a ratio
    carry no value: their formatted text is not modelled. *)
Inductive Event : Type :=
| StderrManifestFailed (input_arg : string) (e : PyException)   (* line 90 *)
| StderrPatternNeedsCount                                       (* line 94 *)
| PrintFound (num_files : Z) (manifest_mode : bool)             (* line 104 *)
| Send (payload : list string) (dest tag : Z)                   (* line 109 *)
| PrintRunningBaseline                                          (* line 115 *)
| PrintBaselineTime                                             (* line 120 *)
| PrintStarting                                                 (* line 122 *)
| Barrier                                                       (* line 123 *)
| Recv (source tag : Z)                                         (* line 128 *)
| PrintRule                                                     (* lines 134, 136, 141, 151 *)
| PrintTitle                                                    (* line 135 *)
| PrintLevel (lvl : string) (n : Z)                             (* line 138 *)
| PrintOpenErrors (n : Z)                                       (* line 140 *)
| PrintParallelTime                                             (* line 142 *)
| PrintSequentialTime                                           (* line 146 *)
| PrintSpeedup                                                  (* line 147 *)
| PrintEfficiency                                               (* line 148 *)
| PrintSequentialNA.                                            (* line 150 *)

Abbreviation World := (list Event).

Definition emit (e : Event) : Py World unit := modify (fun w => (w ++ [e])%list).

(** The first assignment (tag 11) the coordinator has sent to [dest]: what the
    worker's [comm.recv(source=0, tag=11)] obtains. *)
Fixpoint sent_to (dest : Z) (w : World) : option (list string) :=
  match w with
  | [] => None
  | Send payload d tag :: w' =>
      if (d =? dest) && (tag =? 11) then Some payload else sent_to dest w'
  | _ :: w' => sent_to dest w'
  end.

(** [for x in l: acc = body acc x] for a loop that updates one local. *)
Fixpoint fold_each {S A B} (body : A -> B -> Py S A) (acc : A) (l : list B) : Py S A :=
  match l with
  | [] => ret acc
  | x :: l' => let* acc' := body acc x in fold_each body acc' l'
  end.

Section Coordinator.
Variable fs : string -> FileRead.
Variable clock : Clock.

(** A worker rank, lines 155-158: the counts it sends back for the
    assignment it received. *)
Definition worker (assigned : list string) : Outcome Counter :=
  analyse_files fs assigned.

(** [comm.recv(source=r, tag=22)] on the coordinator: the reply of worker
    [source], which exists once that worker has been sent an assignment and
    has returned from its analysis. *)
Definition comm_recv (source tag : Z) : Py World Counter :=
  fun w =>
    match sent_to source w with
    | Some assigned =>
        match worker assigned with
        | Returned wc =>
            if tag =? 22 then ((w ++ [Recv source tag])%list, Returned wc)
            else (w, Blocked)
        | _ => (w, Blocked)
        end
    | None => (w, Blocked)
    end.

(** File-list resolution, lines 80-101: the list and [manifest_mode]. *)
Definition resolve_file_list (args : Args) : Py World (list string * bool) :=
  let input_arg := input args in
  if PyStr.endswith input_arg ".txt" then
    try_except
      (let* file_list := call (read_manifest fs input_arg) in
       ret (file_list, true))
      (fun e => emit (StderrManifestFailed input_arg e) >> ret ([], false))
  else if PyStr.contains "{n}" input_arg then
    if count args <=? 0
    then emit StderrPatternNeedsCount >> ret ([], false)
    else ret (build_from_pattern input_arg (count args), false)
  else ret ([input_arg], false).

(** The totals of the results block, lines 134-141. *)
Definition report_counts (master_counts : Counter) : Py World unit :=
  emit PrintRule >> emit PrintTitle >> emit PrintRule >>
  for_each LOG_LEVELS (fun lvl => emit (PrintLevel lvl (get0 master_counts lvl))) >>
  (if 0 <? get0 master_counts ERRORS_TAG
   then emit (PrintOpenErrors (get0 master_counts ERRORS_TAG))
   else ret tt) >>
  emit PrintRule.

(** The timings of the results block, lines 142-151.  The two divisions come
    before the three lines they feed. *)
Definition report_timings (seq_time : option Q) (parallel_time : Q) (size : Z)
    : Py World unit :=
  emit PrintParallelTime >>
  (match seq_time with
   | Some st =>
       if positive st then
         let* speedup := call (py_truediv st parallel_time) in
         let* efficiency := call (py_truediv speedup (inject_Z size)) in
         emit PrintSequentialTime >> emit PrintSpeedup >> emit PrintEfficiency
       else emit PrintSequentialNA
   | None => emit PrintSequentialNA
   end) >>
  emit PrintRule.

(** The results block, lines 134-151. *)
Definition report (master_counts : Counter) (seq_time : option Q)
    (parallel_time : Q) (size : Z) : Py World unit :=
  report_counts master_counts >> report_timings seq_time parallel_time size.

(** Dispatch, lines 106-109. *)
Definition dispatch (assignments : list (list string)) (size : Z) : Py World unit :=
  for_each (range 1 size)
    (fun r => let* a := call (py_index assignments r) in emit (Send a r 11)).

(** The timed section, lines 125-129: the coordinator's own slice, then the
    partial results in rank order. *)
Definition collect (my_files : list string) (size : Z) : Py World Counter :=
  let* master_counts := call (analyse_files fs my_files) in
  fold_each
    (fun master_counts r =>
       let* wc := comm_recv r 22 in ret (dict_add master_counts wc))
    master_counts (range 1 size).

(** The optional baseline, lines 113-120: [seq_time]. *)
Definition baseline (args : Args) (file_list : list string) : Py World (option Q) :=
  if no_seq args then ret None
  else
    emit PrintRunningBaseline >>
    let* _ := call (analyse_files fs file_list) in
    emit PrintBaselineTime >>
    ret (Some (baseline_stop clock - baseline_start clock)%Q).

(** The [rank == 0] branch of [main] up to the end of the timed section,
    lines 79-131, for a communicator of [size] processes: [master_counts],
    [seq_time] and [parallel_time] as they stand after line 131. *)
Definition coordinate (args : Args) (size : Z) : Py World (Counter * option Q * Q) :=
  let* '(file_list, manifest_mode) := resolve_file_list args in
  let num_files := Z.of_nat (length file_list) in
  emit (PrintFound num_files manifest_mode) >>
  let assignments := chunk_list file_list size in
  dispatch assignments size >>
  let* my_files := call (py_index assignments 0) in
  let* seq_time := baseline args file_list in
  emit PrintStarting >>
  emit Barrier >>
  let* master_counts := collect my_files size in
  ret (master_counts, seq_time, (parallel_stop clock - parallel_start clock)%Q).

(** The whole [rank == 0] branch of [main], lines 79-151; it returns the final
    [master_counts]. *)
Definition main_rank0 (args : Args) (size : Z) : Py World Counter :=
  let* '(master_counts, seq_time, parallel_time) := coordinate args size in
  report master_counts seq_time parallel_time size >>
  ret master_counts.

End Coordinator.

(** ** A concrete run: the example of the specification *)

Module Demo.
Definition a_log : list string :=
  [ "[t1] [ERROR] Disk read failed" ++ String PyStr.newline "";
    "[t2] [INFO] Request processed" ++ String PyStr.newline "";
    "[t3] [ERROR] Network timeout" ++ String PyStr.newline "";
    "not a log line" ++ String PyStr.newline "";
    "[t4] [TRACE] ignored level" ++ String PyStr.newline "";
    "[t5] [INFO] Cache miss" ++ String PyStr.newline "";
    "[t6] [ERROR] Authentication failed" ]%string.

Definition fs (fname : string) : FileRead :=
  if String.eqb fname "a.log" then mkFileRead a_log None
  else if String.eqb fname "files.txt"
       then mkFileRead ["a.log" ++ String PyStr.newline ""; String PyStr.newline "";
                        "  b.log "]%string None
  else if String.eqb fname "batch{n}.txt"
       then mkFileRead ["a.log" ++ String PyStr.newline ""]%string None
  else mkFileRead [] (Some OSError).

Definition expected : Counter :=
  <["ERROR" := 3]> (<["INFO" := 2]> (<[ERRORS_TAG := 1]> ∅)).

(** Clock readings: an ordinary run, and a run whose timed section starts and
    stops on the same reading. *)
Definition clock : Clock := mkClock 10 12 12 13.
Definition coarse_clock : Clock := mkClock 10 12 12 12.

(** Three partial results. *)
Definition p1 : Counter := <["ERROR" := 3]> (<["INFO" := 2]> ∅).
Definition p2 : Counter := <["WARN" := 1]> (<["ERROR" := 4]> ∅).
Definition p3 : Counter := <[ERRORS_TAG := 1]> ∅.
End Demo.

(** ** Definitions used to state the properties *)

(** *** A run of increments

    [bump ks c] performs [counts[k] += 1] for each [k] of [ks], in order. *)
Definition bump (ks : list string) (c : Counter) : Counter :=
  foldl (fun c k => incr k c) c ks.

Definition occurrences (k : string) (ks : list string) : Z :=
  Z.of_nat (length (filter (fun x => x = k) ks)).

(** The tag a line contributes, if any. *)
Definition line_key (line : string) : option string :=
  match LogRegex.match_group2 line with
  | Some g2 =>
      let level := PyStr.strip g2 in
      if py_in level LOG_LEVELS then Some level else None
  | None => None
  end.

Section Traces.
Variable fs : string → FileRead.

(** The tags one file contributes, in the order they are counted. *)
Definition file_keys (fname : string) : list string :=
  omap line_key (lines (fs fname)) ++
  match failure (fs fname) with
  | Some _ => [ERRORS_TAG]
  | None => []
  end.

Definition tags (file_list : list string) : list string :=
  concat (file_keys <$> file_list).

(** What resolution prints and what it yields, from an empty trace. *)
Definition resolve_events (args : Args) : list Event :=
  fst (resolve_file_list fs args []).

Definition resolved (args : Args) : list string * bool :=
  match snd (resolve_file_list fs args []) with
  | Returned x => x
  | _ => ([], false)
  end.

End Traces.

(** Where chunk [i] starts: [i] full quotients plus one extra element for
    each earlier chunk among the first [r]. *)
Definition boundary (q r i : Z) : Z := i * q + Z.min i r.

(** The entries a manifest contributes: its stripped, non-empty lines. *)
Definition manifest_entries (ls : list string) : list string :=
  omap (fun line =>
          let s := PyStr.strip line in
          if String.eqb s "" then None else Some s) ls.

Definition assignment_of (assignments : list (list string)) (r : Z) : list string :=
  default [] (assignments !! Z.to_nat r).

Definition send_events (assignments : list (list string)) (size : Z) : list Event :=
  (fun r => Send (assignment_of assignments r) r 11) <$> range 1 size.

Definition is_send (e : Event) : bool :=
  match e with Send _ _ _ => true | _ => false end.

Definition recv_events (size : Z) : list Event :=
  (fun r => Recv r 22) <$> range 1 size.

Definition report_events (master_counts : Counter) : list Event :=
  [PrintRule; PrintTitle; PrintRule]
  ++ ((fun lvl => PrintLevel lvl (get0 master_counts lvl)) <$> LOG_LEVELS)
  ++ (if 0 <? get0 master_counts ERRORS_TAG
      then [PrintOpenErrors (get0 master_counts ERRORS_TAG)]
      else [])
  ++ [PrintRule].

(** What the timings block prints, and how it ends. *)
Definition timing_events (seq_time : option Q) (parallel_time : Q) (size : Z)
    : list Event :=
  fst (report_timings seq_time parallel_time size []).

Definition timing_outcome (seq_time : option Q) (parallel_time : Q) (size : Z)
    : Outcome unit :=
  snd (report_timings seq_time parallel_time size []).

Definition seq_time_of (clock : Clock) (no_seq : bool) : option Q :=
  if no_seq then None else Some (baseline_stop clock - baseline_start clock)%Q.

Definition parallel_time_of (clock : Clock) : Q :=
  (parallel_stop clock - parallel_start clock)%Q.

(** The counts a run holds after line 131, if it gets there. *)
Definition counts_of (o : Outcome (Counter * option Q * Q)) : Outcome Counter :=
  match o with
  | Returned (master_counts, _, _) => Returned master_counts
  | Raised e => Raised e
  | Blocked => Blocked
  end.

(** The lines of the report that show a total. *)
Definition is_total_line (e : Event) : bool :=
  match e with
  | PrintLevel _ _ | PrintOpenErrors _ => true
  | _ => false
  end.

Definition baseline_events (no_seq : bool) : list Event :=
  if no_seq then [] else [PrintRunningBaseline; PrintBaselineTime].

(** Everything the coordinator prints and exchanges after dispatch, up to the
    end of the totals, line 141. *)
Definition closing_events (no_seq : bool) (size : Z) (total : Counter) : list Event :=
  baseline_events no_seq ++ [PrintStarting; Barrier]
  ++ recv_events size ++ report_events total.

Definition is_stderr (e : Event) : bool :=
  match e with
  | StderrManifestFailed _ _ | StderrPatternNeedsCount => true
  | _ => false
  end.

Definition is_open_errors (e : Event) : bool :=
  match e with PrintOpenErrors _ => true | _ => false end.

Ltac elem_cases H :=
  repeat (apply elem_of_cons in H as [H|H]; [try discriminate H|]);
  try (by apply elem_of_nil in H).

Module DemoClean.
(** A run over one readable file, with one process and no baseline. *)
Definition args : Args := mkArgs "a.log" 0 true.
Definition counts : Counter := <["ERROR" := 3]> (<["INFO" := 2]> ∅).
End DemoClean.

(** Pattern mode with a non-positive [--count], or a manifest whose read
    raises. *)
Definition configuration_error (fs : string → FileRead) (args : Args) : Prop :=
  (PyStr.endswith (input args) ".txt" = true
   ∧ ∃ e, read_manifest fs (input args) = Raised e)
  ∨ (PyStr.endswith (input args) ".txt" = false
     ∧ PyStr.contains "{n}" (input args) = true
     ∧ count args ≤ 0).

(** Keys are recognised levels or the error tag, counts are non-negative. *)
Definition valid_counter (c : Counter) : Prop :=
  ∀ k v, c !! k = Some v → (k ∈ LOG_LEVELS ∨ k = ERRORS_TAG) ∧ 0 ≤ v.

(** The mappings the program builds: results of [analyse_files], and merges of
    such mappings. *)
Inductive produced (fs : string → FileRead) : Counter → Prop :=
| produced_analyse file_list counts :
    analyse_files fs file_list = Returned counts → produced fs counts
| produced_merge a b :
    produced fs a → produced fs b → produced fs (dict_add a b).

(** ** Definitions used by the further properties *)

(** Every character of a string satisfies a test. *)
Fixpoint string_forall (p : ascii → bool) (s : string) : bool :=
  match s with
  | EmptyString => true
  | String c s' => p c && string_forall p s'
  end.

(** A character the lazy groups of the pattern can hold: anything but the
    closing bracket, which ends the group, and the newline, which the dot
    rejects. *)
Definition group_char (c : ascii) : bool :=
  negb (Ascii.eqb c "]") && negb (Ascii.eqb c PyStr.newline).

(** How [replace_from] treats a string, whatever the replacement is: the
    number of occurrences it replaces and the number of characters it keeps. *)
Fixpoint replaced_count (skip : nat) (old s : string) : nat :=
  match s with
  | EmptyString => O
  | String c s' =>
      match skip with
      | S k => replaced_count k old s'
      | O =>
          if PyStr.startswith s old
          then S (replaced_count (String.length old - 1) old s')
          else replaced_count O old s'
      end
  end.

Fixpoint kept_count (skip : nat) (old s : string) : nat :=
  match s with
  | EmptyString => O
  | String c s' =>
      match skip with
      | S k => kept_count k old s'
      | O =>
          if PyStr.startswith s old
          then kept_count (String.length old - 1) old s'
          else S (kept_count O old s')
      end
  end.

Module DemoPartial.
(** A file whose read raises after two lines, and the same file read to the
    end. *)
Definition two_lines : list string :=
  [ "[t1] [WARN] Cache miss" ++ String PyStr.newline "";
    "[t2] [DEBUG] Request processed" ++ String PyStr.newline "" ]%string.
Definition fs (fname : string) : FileRead := mkFileRead two_lines (Some OSError).
Definition cured (fname : string) : FileRead := mkFileRead two_lines None.
End DemoPartial.

(** A string that does not begin with whitespace. *)
Definition starts_clean (s : string) : Prop :=
  match s with
  | String c _ => PyStr.isspace c = false
  | EmptyString => True
  end.

(** The events that are communication: point-to-point messages and the
    barrier. *)
Definition is_message (e : Event) : bool :=
  match e with
  | Send _ _ _ | Recv _ _ | Barrier => true
  | _ => false
  end.

(** ** The log generator ([generator.py.py]) *)

Module Generator.

Definition LOG_LEVELS : list string := ["INFO"; "WARN"; "ERROR"; "DEBUG"].

Definition MESSAGES : list string :=
  [ "Connection established"; "Request processed"; "Database query executed";
    "Cache miss"; "Authentication failed"; "Disk read failed";
    "Memory allocation error"; "Network timeout" ].

(** What one iteration of the loop of [generate_log_file] obtains from the
    clock and from the two calls of [random.choice], lines 20-22. *)
Record Draw : Type := mkDraw {
  timestamp : string;
  level : string;
  message : string
}.

(** The line written at line 23. *)
Definition format_line (d : Draw) : string :=
  ("[" ++ timestamp d ++ "] [" ++ level d ++ "] " ++ message d
   ++ String PyStr.newline "")%string.

(** [generate_log_file], lines 17-23: the strings written to the file, one for
    each of the [num_lines] iterations, given what each iteration draws. *)
Definition generate_log_file (draws : list Draw) : list string :=
  format_line <$> draws.

(** A character of [datetime.isoformat()]: a digit or one of the separators. *)
Definition iso_char (c : ascii) : bool :=
  let n := N_of_ascii c in
  ((48 <=? n) && (n <=? 57) || (n =? 45) || (n =? 46) || (n =? 58) || (n =? 84))%N.

(** A draw as the generator makes it: an ISO timestamp, and a level and a
    message taken from the two lists. *)
Definition well_formed (d : Draw) : Prop :=
  string_forall iso_char (timestamp d) = true
  ∧ level d ∈ LOG_LEVELS
  ∧ message d ∈ MESSAGES.

End Generator.

(** ** The sequential reference ([base_log_analyser.py]) and the first
    parallel version ([parallel_log_analyser.py]) *)

Module Base.

(** [line.split(' ')]: the fields between single spaces, empty fields kept. *)
Fixpoint split_space (s : string) : list string :=
  match s with
  | EmptyString => [EmptyString]
  | String c s' =>
      if Ascii.eqb c " " then EmptyString :: split_space s'
      else match split_space s' with
           | field :: fields => String c field :: fields
           | [] => [String c EmptyString]
           end
  end.

(** [p[1:-1]] *)
Definition strip_brackets (p : string) : string :=
  substring 1 (String.length p - 2) p.

(** The level a line counts for, lines 13-16 of [analyze_log]; the pattern on
    [parts] stands for the test of its length followed by [parts[1]]. *)
Definition line_level (line : string) : option string :=
  match split_space line with
  | _ :: field :: _ =>
      if PyStr.startswith field "[" && PyStr.endswith field "]"
      then let level := strip_brackets field in
           if py_in level ["DEBUG"; "ERROR"; "INFO"; "WARN"] then Some level else None
      else None
  | _ => None
  end.

(** [Counter._keep_positive] and the in-place addition of two Counters. *)
Definition keep_positive (c : Counter) : Counter :=
  filter (fun kv => 0 < kv.2) c.

Definition counter_iadd (total other : Counter) : Counter :=
  keep_positive (dict_add total other).

Section Programs.
Variable fs : string → FileRead.

(** [analyze_log(file_path)], the same function in both files: there is no
    handler, so a failing read raises out of it. *)
Definition analyze_log (file_path : string) : Outcome Counter :=
  result_of
    (with_open_lines fs file_path
       (fun line =>
          match line_level line with
          | Some level => modify (incr level)
          | None => ret tt
          end)
     >> get) ∅.

(** The loop over the files, lines 30-33 of the base program; the worker of
    the parallel version runs the same loop on its share, lines 72-74. *)
Definition analyse_all (log_files : list string) : Outcome Counter :=
  result_of
    (for_each log_files
       (fun file =>
          let* counts := call (analyze_log file) in
          modify (fun total => counter_iadd total counts))
     >> get) ∅.

(** The share of worker [i], lines 47-51 of the parallel version. *)
Definition files_for_worker (log_files : list string) (size i : Z) : list string :=
  let num_files := Z.of_nat (length log_files) in
  let chunk_size := (num_files + size - 2) / (size - 1) in
  let start_idx := (i - 1) * chunk_size in
  let end_idx := Z.min (start_idx + chunk_size) num_files in
  py_slice log_files start_idx end_idx.

(** What [comm.recv(source=i)] gives the coordinator: the counts worker [i]
    sends after its loop.  A worker whose loop raises sends nothing. *)
Definition partial_of_worker (log_files : list string) (size i : Z) : Outcome Counter :=
  match analyse_all (files_for_worker log_files size i) with
  | Returned partial => Returned partial
  | _ => Blocked
  end.

(** The coordinator of the parallel version, lines 41-56: the totals. *)
Definition parallel_totals (log_files : list string) (size : Z) : Outcome Counter :=
  if size =? 1 then analyse_all log_files
  else
    result_of
      (for_each (range 1 size)
         (fun i =>
            let* partial := call (partial_of_worker log_files size i) in
            modify (fun total => counter_iadd total partial))
       >> get) ∅.

End Programs.
End Base.

(** The levels the base loop counts over a list of files, in order. *)
Definition base_tags (fs : string → FileRead) (log_files : list string) : list string :=
  concat ((fun f => omap Base.line_level (lines (fs f))) <$> log_files).

(** A string without a space. *)
Definition no_space (s : string) : bool :=
  string_forall (fun c => negb (Ascii.eqb c " ")) s.

Module DemoGen.
(** Three iterations of the generator, and a file system in which every file
    reads back as what they wrote. *)
Definition draws : list Generator.Draw :=
  [ Generator.mkDraw "2024-05-01T10:00:00.000001" "WARN" "Cache miss";
    Generator.mkDraw "2024-05-01T10:00:00.000002" "INFO" "Request processed";
    Generator.mkDraw "2024-05-01T10:00:00.000003" "WARN" "Network timeout" ].
Definition fs (fname : string) : FileRead :=
  mkFileRead (Generator.generate_log_file draws) None.
End DemoGen.

(** * Properties *)

(** ** Checks on concrete inputs *)

Example strip_example : PyStr.strip "  ERROR	" = "ERROR".
Proof. reflexivity. Qed.

Example strip_blank : PyStr.strip "   " = "".
Proof. reflexivity. Qed.

Example endswith_example :
  PyStr.endswith "logs.txt" ".txt" = true /\ PyStr.endswith "txt" ".txt" = false.
Proof. split; reflexivity. Qed.

Example contains_example :
  PyStr.contains "{n}" "node{n}.log" = true /\ PyStr.contains "{n}" "node.log" = false.
Proof. split; reflexivity. Qed.

Example replace_example :
  PyStr.replace "node{n}-{n}.log" "{n}" (PyStr.str 12) = "node12-12.log".
Proof. vm_compute. reflexivity. Qed.

Example regex_generated_line :
  LogRegex.match_group2 "[2024-01-01T10:00:00] [ERROR] Disk read failed" = Some "ERROR".
Proof. reflexivity. Qed.

Example regex_no_gap_and_padding :
  LogRegex.match_group2 "[t][ WARN ]x" = Some " WARN " /\
  LogRegex.match_group2 "plain text" = None /\
  LogRegex.match_group2 "[a] b [INFO]" = None.
Proof. repeat split; reflexivity. Qed.

Example regex_backtracks_group1 :
  LogRegex.match_group2 "[a]b] [INFO] c" = Some "INFO".
Proof. reflexivity. Qed.

Example build_from_pattern_example :
  build_from_pattern "node{n}.log" 3 = ["node1.log"; "node2.log"; "node3.log"].
Proof. vm_compute. reflexivity. Qed.

Example chunk_7_3 :
  chunk_list ["a"; "b"; "c"; "d"; "e"; "f"; "g"] 3
  = [["a"; "b"; "c"]; ["d"; "e"]; ["f"; "g"]].
Proof. vm_compute. reflexivity. Qed.

Example chunk_more_parts_than_files :
  chunk_list ["a"; "b"] 4 = [["a"]; ["b"]; []; []].
Proof. vm_compute. reflexivity. Qed.

Example chunk_nonpositive : chunk_list ["a"; "b"] 0 = [] /\ chunk_list ["a"] (-2) = [].
Proof. split; reflexivity. Qed.

Example demo_analyse :
  analyse_files Demo.fs ["a.log"; "b.log"] = Returned Demo.expected.
Proof. vm_compute. reflexivity. Qed.

Example demo_manifest :
  read_manifest Demo.fs "files.txt" = Returned ["a.log"; "b.log"].
Proof. vm_compute. reflexivity. Qed.

Example demo_run_two_ranks :
  result_of (main_rank0 Demo.fs Demo.clock (mkArgs "files.txt" 0 false) 2) []
  = Returned Demo.expected.
Proof. vm_compute. reflexivity. Qed.

Example demo_run_coarse_clock :
  main_rank0 Demo.fs Demo.coarse_clock (mkArgs "files.txt" 0 false) 2 []
  = ([PrintFound 2 true; Send ["b.log"] 1 11; PrintRunningBaseline; PrintBaselineTime;
      PrintStarting; Barrier; Recv 1 22; PrintRule; PrintTitle; PrintRule;
      PrintLevel "DEBUG" 0; PrintLevel "ERROR" 3; PrintLevel "INFO" 2;
      PrintLevel "WARN" 0; PrintOpenErrors 1; PrintRule; PrintParallelTime],
     Raised ZeroDivisionError)
  ∧ snd (main_rank0 Demo.fs Demo.coarse_clock (mkArgs "files.txt" 0 true) 2 [])
    = Returned Demo.expected.
Proof. split; vm_compute; reflexivity. Qed.

(** ** Counters and the additive merge *)

Lemma get0_empty k : get0 ∅ k = 0.
Proof. unfold get0. by rewrite lookup_empty. Qed.

Lemma get0_incr_eq k (c : Counter) : get0 (incr k c) k = get0 c k + 1.
Proof. unfold get0, incr. by rewrite lookup_insert_eq. Qed.

Lemma get0_incr_ne k k' (c : Counter) : k ≠ k' → get0 (incr k c) k' = get0 c k'.
Proof. intros. unfold get0, incr. by rewrite lookup_insert_ne. Qed.

(** Reading [dict_add a b] at a key: keys of [b] are summed into [a], the other
    keys of [a] are untouched. *)
Lemma dict_add_lookup (a b : Counter) k :
  dict_add a b !! k =
    match b !! k with
    | Some v => Some (get0 a k + v)
    | None => a !! k
    end.
Proof.
  unfold dict_add.
  apply (map_fold_weak_ind
           (fun r m => r !! k = match m !! k with
                                | Some v => Some (get0 a k + v)
                                | None => a !! k
                                end)).
  - by rewrite lookup_empty.
  - intros i x m r Hi IH.
    destruct (decide (i = k)) as [->|Hne].
    + rewrite !lookup_insert_eq. rewrite Hi in IH. unfold get0. by rewrite IH.
    + by rewrite !lookup_insert_ne.
Qed.

Lemma get0_dict_add (a b : Counter) k :
  get0 (dict_add a b) k = get0 a k + get0 b k.
Proof.
  unfold get0 at 1. rewrite dict_add_lookup. unfold get0.
  destruct (b !! k); simpl; lia.
Qed.

Lemma dict_add_empty_r (a : Counter) : dict_add a ∅ = a.
Proof. apply map_eq; intros k. by rewrite dict_add_lookup, lookup_empty. Qed.

Lemma dict_add_empty_l (b : Counter) : dict_add ∅ b = b.
Proof.
  apply map_eq; intros k. rewrite dict_add_lookup, get0_empty.
  destruct (b !! k); [f_equal; lia | apply lookup_empty].
Qed.

Lemma dict_add_comm (a b : Counter) : dict_add a b = dict_add b a.
Proof.
  apply map_eq; intros k. rewrite !dict_add_lookup. unfold get0.
  destruct (a !! k), (b !! k); simpl; try done; f_equal; lia.
Qed.

Lemma dict_add_assoc (a b c : Counter) :
  dict_add (dict_add a b) c = dict_add a (dict_add b c).
Proof.
  apply map_eq; intros k. rewrite !dict_add_lookup, get0_dict_add.
  unfold get0. destruct (b !! k), (c !! k); simpl; try done; f_equal; lia.
Qed.

(** Swapping two partial results on their way into a running total. *)
Lemma dict_add_swap (t a b : Counter) :
  dict_add (dict_add t a) b = dict_add (dict_add t b) a.
Proof. by rewrite !dict_add_assoc, (dict_add_comm a b). Qed.

Lemma foldl_dict_add_perm (t : Counter) (ps qs : list Counter) :
  Permutation ps qs → foldl dict_add t ps = foldl dict_add t qs.
Proof.
  intros Hp. revert t.
  induction Hp as [|p ps qs _ IH|p q ps|ps qs rs _ IH1 _ IH2]; intros t; simpl.
  - done.
  - apply IH.
  - by rewrite dict_add_swap.
  - by rewrite IH1.
Qed.

(** Folding a list of partial results into [t] adds their sum to [t]. *)
Lemma foldl_dict_add_acc (t : Counter) (ps : list Counter) :
  foldl dict_add t ps = dict_add t (foldl dict_add ∅ ps).
Proof.
  revert t. induction ps as [|p ps IH]; intros t; simpl.
  - by rewrite dict_add_empty_r.
  - rewrite IH, (IH (dict_add ∅ p)), dict_add_empty_l. by rewrite dict_add_assoc.
Qed.

Lemma occurrences_app k ks1 ks2 :
  occurrences k (ks1 ++ ks2) = occurrences k ks1 + occurrences k ks2.
Proof. unfold occurrences. rewrite filter_app, length_app. lia. Qed.

Lemma occurrences_nonneg k ks : 0 ≤ occurrences k ks.
Proof. unfold occurrences. lia. Qed.

Lemma occurrences_pos k ks : k ∈ ks → 0 < occurrences k ks.
Proof.
  unfold occurrences. induction 1 as [|x ks Hin IH].
  - rewrite filter_cons_True by done. simpl. lia.
  - rewrite filter_cons. case_decide; simpl; lia.
Qed.

Lemma occurrences_zero k ks : k ∉ ks → occurrences k ks = 0.
Proof.
  unfold occurrences. induction ks as [|x ks IH]; [done|].
  intros Hn. rewrite filter_cons_False by set_solver.
  apply IH. set_solver.
Qed.

Lemma bump_app ks1 ks2 c : bump (ks1 ++ ks2) c = bump ks2 (bump ks1 c).
Proof. unfold bump. by rewrite foldl_app. Qed.

Lemma occurrences_singleton k x :
  occurrences k [x] = if decide (x = k) then 1 else 0.
Proof. unfold occurrences. rewrite filter_cons. by case_decide. Qed.

Lemma bump_lookup ks (c : Counter) k :
  bump ks c !! k =
    if decide (k ∈ ks) then Some (get0 c k + occurrences k ks) else c !! k.
Proof.
  revert c. induction ks as [|x ks IH]; intros c.
  - case_decide as Hin; [by apply elem_of_nil in Hin | done].
  - change (bump (x :: ks) c) with (bump ks (incr x c)). rewrite IH.
    change (x :: ks) with ([x] ++ ks). rewrite occurrences_app, occurrences_singleton.
    destruct (decide (x = k)) as [->|Hne].
    + rewrite get0_incr_eq. rewrite (decide_True (P := k ∈ [k] ++ ks)) by set_solver.
      case_decide as Hin.
      * f_equal; lia.
      * rewrite occurrences_zero by done. unfold incr. rewrite lookup_insert_eq.
        f_equal; lia.
    + rewrite get0_incr_ne by done.
      unfold incr. rewrite lookup_insert_ne by done.
      case_decide as Hin.
      * rewrite decide_True by set_solver. f_equal; lia.
      * rewrite decide_False; [done|].
        rewrite elem_of_app, list_elem_of_singleton. intros [?|?]; [congruence | done].
Qed.

(** Merging two runs of increments is the run of their concatenation. *)
Lemma dict_add_bump ks1 ks2 :
  dict_add (bump ks1 ∅) (bump ks2 ∅) = bump (ks1 ++ ks2) ∅.
Proof.
  apply map_eq; intros k.
  rewrite dict_add_lookup, !bump_lookup, occurrences_app.
  unfold get0. rewrite bump_lookup, lookup_empty. simpl.
  destruct (decide (k ∈ ks1)) as [H1|H1], (decide (k ∈ ks2)) as [H2|H2]; simpl.
  - rewrite decide_True by set_solver. f_equal; lia.
  - rewrite decide_True by set_solver. rewrite (occurrences_zero k ks2) by done.
    f_equal; lia.
  - rewrite decide_True by set_solver. rewrite (occurrences_zero k ks1) by done.
    f_equal; lia.
  - rewrite decide_False; [done|]. rewrite elem_of_app. tauto.
Qed.

(** One more increment of a tag that occurs nowhere else sets it to 1. *)
Lemma bump_fresh_tag ks1 ks2 k :
  k ∉ ks1 → k ∉ ks2 →
  bump (ks1 ++ [k] ++ ks2) ∅ = <[k := 1]> (bump (ks1 ++ ks2) ∅).
Proof.
  intros H1 H2. apply map_eq; intros j. rewrite bump_lookup.
  rewrite !occurrences_app, occurrences_singleton.
  destruct (decide (j = k)) as [->|Hne].
  - rewrite lookup_insert_eq, (decide_True (P := k = k)) by done.
    rewrite decide_True by (rewrite !elem_of_app, list_elem_of_singleton; tauto).
    rewrite !occurrences_zero by done. by rewrite get0_empty.
  - rewrite lookup_insert_ne by congruence.
    rewrite (decide_False (P := k = j)) by congruence.
    rewrite bump_lookup, occurrences_app.
    destruct (decide (j ∈ ks1 ++ ks2)) as [Hin|Hin].
    + rewrite decide_True; [f_equal; lia|].
      revert Hin. rewrite !elem_of_app. tauto.
    + rewrite decide_False; [done|].
      revert Hin. rewrite !elem_of_app, list_elem_of_singleton. tauto.
Qed.

(** ** The monad *)

Lemma bind_returned {S A B} (m : Py S A) (k : A → Py S B) s s' a :
  m s = (s', Returned a) → bind m k s = k a s'.
Proof. intros H. unfold bind. by rewrite H. Qed.

Lemma bind_raised {S A B} (m : Py S A) (k : A → Py S B) s s' e :
  m s = (s', Raised e) → bind m k s = (s', Raised e).
Proof. intros H. unfold bind. by rewrite H. Qed.

(** A loop whose body always returns is a fold of the body's effect. *)
Lemma for_each_returns {S B} (body : B → Py S unit) (step : S → B → S) l :
  (∀ x s, body x s = (step s x, Returned tt)) →
  ∀ s, for_each l body s = (foldl step s l, Returned tt).
Proof.
  intros Hbody. induction l as [|x l IH]; intros s; simpl.
  - done.
  - erewrite bind_returned by apply Hbody. apply IH.
Qed.

Lemma fold_each_returns {S A B} (body : A → B → Py S A)
    (step : A → B → A) (effect : A → B → S → S) l :
  (∀ a x s, body a x s = (effect a x s, Returned (step a x))) →
  ∀ a s, snd (fold_each body a l s) = Returned (foldl step a l).
Proof.
  intros Hbody. induction l as [|x l IH]; intros a s; simpl.
  - done.
  - erewrite bind_returned by apply Hbody. apply IH.
Qed.

(** ** The worker logic as a run of increments *)

Section AnalyserFacts.
Variable fs : string → FileRead.

Lemma count_line_effect line c :
  count_line line c = (bump (option_list (line_key line)) c, Returned tt).
Proof.
  unfold count_line, line_key.
  destruct (LogRegex.match_group2 line) as [g2|]; [|done].
  simpl. by destruct (py_in _ _).
Qed.

Lemma lines_effect ls c :
  for_each ls count_line c = (bump (omap line_key ls) c, Returned tt).
Proof.
  rewrite (for_each_returns count_line
             (fun c line => bump (option_list (line_key line)) c))
    by apply count_line_effect.
  f_equal. revert c. induction ls as [|l ls IH]; intros c; [done|].
  simpl. rewrite IH. destruct (line_key l); done.
Qed.

Lemma analyse_one_effect fname c :
  analyse_one fs fname c = (bump (file_keys fs fname) c, Returned tt).
Proof.
  unfold analyse_one, try_except, with_open_lines, file_keys.
  erewrite bind_returned by apply lines_effect.
  rewrite bump_app.
  destruct (failure (fs fname)); done.
Qed.

Lemma analyse_files_tags file_list :
  analyse_files fs file_list = Returned (bump (tags fs file_list) ∅).
Proof.
  unfold analyse_files, result_of.
  erewrite bind_returned
    by apply (for_each_returns _ (fun c f => bump (file_keys fs f) c)), analyse_one_effect.
  simpl. f_equal. unfold tags. generalize (∅ : Counter).
  induction file_list as [|f fl IH]; intros c; [done|].
  simpl. rewrite bump_app. apply IH.
Qed.

Lemma tags_app l1 l2 : tags fs (l1 ++ l2) = tags fs l1 ++ tags fs l2.
Proof. unfold tags. by rewrite fmap_app, concat_app. Qed.

Lemma tags_concat (ls : list (list string)) :
  tags fs (concat ls) = concat (tags fs <$> ls).
Proof.
  induction ls as [|l ls IH]; [done|].
  simpl. by rewrite tags_app, IH.
Qed.

(** Every counted tag is a recognised level or the error tag. *)
Lemma line_key_level line k : line_key line = Some k → k ∈ LOG_LEVELS.
Proof.
  unfold line_key, py_in. destruct (LogRegex.match_group2 line); [|done].
  simpl. case_bool_decide; [|done]. by intros [= <-].
Qed.

Lemma file_keys_valid fname k :
  k ∈ file_keys fs fname → k ∈ LOG_LEVELS ∨ k = ERRORS_TAG.
Proof.
  unfold file_keys. rewrite elem_of_app, list_elem_of_omap.
  intros [(line & _ & Hk)|Hk].
  - left. by eapply line_key_level.
  - right. destruct (failure (fs fname)).
    + by apply list_elem_of_singleton in Hk.
    + by apply elem_of_nil in Hk.
Qed.

Lemma tags_valid file_list k :
  k ∈ tags fs file_list → k ∈ LOG_LEVELS ∨ k = ERRORS_TAG.
Proof.
  induction file_list as [|f fl IH]; [by intros ?%elem_of_nil|].
  change (tags fs (f :: fl)) with (file_keys fs f ++ tags fs fl).
  rewrite elem_of_app. intros [Hk|Hk]; [by eapply file_keys_valid | by apply IH].
Qed.

End AnalyserFacts.

(** ** The partitioner *)

Section Partition.
Context {A : Type}.
Implicit Types lst : list A.

Lemma boundary_step q r i :
  boundary q r i + q + (if i <? r then 1 else 0) = boundary q r (i + 1).
Proof. unfold boundary. destruct (Z.ltb_spec i r); lia. Qed.

Lemma boundary_0 q r : 0 ≤ r → boundary q r 0 = 0.
Proof. unfold boundary. lia. Qed.

Lemma boundary_mono q r i j :
  0 ≤ q → i ≤ j → boundary q r i ≤ boundary q r j.
Proof. unfold boundary. intros. nia. Qed.

Lemma boundary_total len n :
  0 < n → boundary (len / n) (len mod n) n = len.
Proof.
  intros Hn. unfold boundary.
  pose proof (Z.mod_pos_bound len n Hn).
  pose proof (Z.div_mod len n ltac:(lia)). lia.
Qed.

(** The loop, unrolled from any index. *)
Lemma chunk_loop lst q r (m : nat) k chunks :
  foldl (chunk_step lst q r) (boundary q r k, chunks) (seqZ k (Z.of_nat m))
  = (boundary q r (k + Z.of_nat m),
     chunks ++ ((fun i => py_slice lst (boundary q r i) (boundary q r (i + 1)))
                  <$> seqZ k (Z.of_nat m))).
Proof.
  revert k chunks. induction m as [|m IH]; intros k chunks.
  - rewrite Z.add_0_r. simpl. by rewrite app_nil_r.
  - rewrite seqZ_cons by lia.
    replace (Z.pred (Z.of_nat (S m))) with (Z.of_nat m) by lia.
    simpl foldl. rewrite boundary_step.
    replace (Z.succ k) with (k + 1) by lia. rewrite IH.
    f_equal; [f_equal; lia|]. rewrite fmap_cons, <- app_assoc. done.
Qed.

Lemma chunk_list_closed lst n :
  0 < n →
  chunk_list lst n =
    let len := Z.of_nat (length lst) in
    (fun i => py_slice lst (boundary (len / n) (len mod n) i)
                           (boundary (len / n) (len mod n) (i + 1)))
      <$> seqZ 0 n.
Proof.
  intros Hn. unfold chunk_list, range.
  rewrite (proj2 (Z.leb_gt n 0)) by lia.
  rewrite Z.sub_0_r. cbv zeta.
  set (q := Z.of_nat (length lst) / n). set (r := Z.of_nat (length lst) mod n).
  assert (0 ≤ r) by (subst r; apply Z.mod_pos_bound; lia).
  pose proof (chunk_loop lst q r (Z.to_nat n) 0 []) as Hloop.
  rewrite Z2Nat.id, boundary_0 in Hloop by lia.
  by rewrite Hloop.
Qed.

Lemma py_slice_inner lst lo hi :
  0 ≤ lo → lo ≤ hi → hi ≤ Z.of_nat (length lst) →
  py_slice lst lo hi = take (Z.to_nat (hi - lo)) (drop (Z.to_nat lo) lst).
Proof.
  intros. unfold py_slice, slice_bound.
  rewrite !(proj2 (Z.ltb_ge _ 0)) by lia.
  by rewrite !Z.min_l by lia.
Qed.

Section Fixed.
Variables (lst : list A) (n : Z).
Hypothesis Hn : 0 < n.

Let len := Z.of_nat (length lst).
Let q := len / n.
Let r := len mod n.

Lemma quotient_nonneg : 0 ≤ q.
Proof. subst q len. apply Z.div_pos; lia. Qed.

Lemma remainder_range : 0 ≤ r ∧ r < n.
Proof. subst r. by apply Z.mod_pos_bound. Qed.

Lemma boundary_range i : 0 ≤ i → i ≤ n → 0 ≤ boundary q r i ∧ boundary q r i ≤ len.
Proof.
  intros. pose proof quotient_nonneg. pose proof remainder_range.
  split.
  - rewrite <- (boundary_0 q r) by lia. by apply boundary_mono.
  - pose proof (boundary_total len n Hn) as Ht. fold q r in Ht.
    pose proof (boundary_mono q r i n). lia.
Qed.

Lemma chunk_lookup (i : nat) :
  Z.of_nat i < n →
  chunk_list lst n !! i =
    Some (take (Z.to_nat (q + if Z.of_nat i <? r then 1 else 0))
               (drop (Z.to_nat (boundary q r (Z.of_nat i))) lst)).
Proof.
  intros Hi. rewrite chunk_list_closed by done. cbv zeta.
  rewrite list_lookup_fmap, lookup_seqZ_lt by done. simpl.
  rewrite Z.add_0_l. fold len q r. pose proof quotient_nonneg.
  destruct (boundary_range (Z.of_nat i)); [lia..|].
  destruct (boundary_range (Z.of_nat i + 1)); [lia..|].
  pose proof (boundary_mono q r (Z.of_nat i) (Z.of_nat i + 1)).
  rewrite py_slice_inner by (fold len; lia).
  do 3 f_equal. rewrite <- boundary_step. lia.
Qed.

Lemma chunk_lookup_length (i : nat) c :
  chunk_list lst n !! i = Some c →
  Z.of_nat (length c) = q + if Z.of_nat i <? r then 1 else 0.
Proof.
  intros Hc.
  assert (Z.of_nat i < n) as Hi.
  { apply lookup_lt_Some in Hc. rewrite chunk_list_closed in Hc by done.
    cbv zeta in Hc. rewrite length_fmap, length_seqZ in Hc. lia. }
  rewrite chunk_lookup in Hc by done. injection Hc as <-.
  pose proof quotient_nonneg.
  destruct (boundary_range (Z.of_nat i)); [lia..|].
  destruct (boundary_range (Z.of_nat i + 1)); [lia..|].
  pose proof (boundary_step q r (Z.of_nat i)).
  rewrite length_take, length_drop. fold len.
  destruct (Z.of_nat i <? r); lia.
Qed.

Lemma chunk_list_length : length (chunk_list lst n) = Z.to_nat n.
Proof.
  rewrite chunk_list_closed by done. cbv zeta.
  by rewrite length_fmap, length_seqZ.
Qed.

(** The first [m] chunks, joined, are the first [boundary m] elements. *)
Lemma chunk_prefix_concat (m : nat) :
  Z.of_nat m ≤ n →
  concat ((fun i => py_slice lst (boundary q r i) (boundary q r (i + 1)))
            <$> seqZ 0 (Z.of_nat m))
  = take (Z.to_nat (boundary q r (Z.of_nat m))) lst.
Proof.
  pose proof quotient_nonneg. pose proof remainder_range.
  induction m as [|m IH]; intros Hm.
  { simpl. by rewrite boundary_0 by lia. }
  rewrite seqZ_S, fmap_app, concat_app, IH by lia. simpl.
  rewrite app_nil_r, Z.add_0_l.
  destruct (boundary_range (Z.of_nat m)); [lia..|].
  destruct (boundary_range (Z.of_nat m + 1)); [lia..|].
  pose proof (boundary_mono q r (Z.of_nat m) (Z.of_nat m + 1)).
  rewrite py_slice_inner by (fold len; lia).
  rewrite take_take_drop. f_equal.
  replace (Z.of_nat (S m)) with (Z.of_nat m + 1) by lia. lia.
Qed.

Lemma chunk_list_concat : concat (chunk_list lst n) = lst.
Proof.
  rewrite chunk_list_closed by done. cbv zeta. fold len q r.
  rewrite <- (Z2Nat.id n) at 1 by lia.
  rewrite chunk_prefix_concat by lia.
  rewrite Z2Nat.id by lia. subst q r.
  rewrite boundary_total by done. subst len.
  rewrite Nat2Z.id. by apply take_ge.
Qed.
End Fixed.
End Partition.

(** ** The coordinator, step by step

    Each phase of [main] returns and appends its events to the trace. *)

Lemma for_each_returns_in {S B} (body : B → Py S unit) (step : S → B → S) l :
  (∀ x s, x ∈ l → body x s = (step s x, Returned tt)) →
  ∀ s, for_each l body s = (foldl step s l, Returned tt).
Proof.
  induction l as [|x l IH]; intros Hbody s; simpl.
  - done.
  - erewrite bind_returned by (apply Hbody; left).
    apply IH. intros y s' Hy. apply Hbody. by right.
Qed.

Lemma foldl_emit {B} (ev : B → Event) (l : list B) (w : World) :
  foldl (fun w x => w ++ [ev x]) w l = w ++ (ev <$> l).
Proof.
  revert w. induction l as [|x l IH]; intros w; simpl.
  - by rewrite app_nil_r.
  - by rewrite IH, <- app_assoc.
Qed.

Lemma for_each_emit {B} (ev : B → Event) (l : list B) (w : World) :
  for_each l (fun x => emit (ev x)) w = (w ++ (ev <$> l), Returned tt).
Proof.
  rewrite (for_each_returns _ (fun w x => w ++ [ev x])) by done.
  by rewrite foldl_emit.
Qed.

Lemma range_lookup a b (i : nat) r :
  range a b !! i = Some r ↔ r = a + Z.of_nat i ∧ r < b.
Proof. unfold range. rewrite lookup_seqZ. split; intros [-> ?]; split; lia. Qed.

Lemma elem_of_range a b r : r ∈ range a b ↔ a ≤ r ∧ r < b.
Proof.
  rewrite list_elem_of_lookup. split.
  - intros [i Hi]. apply range_lookup in Hi. lia.
  - intros [? ?]. exists (Z.to_nat (r - a)). apply range_lookup. lia.
Qed.

Lemma py_index_lookup {A} (l : list A) (i : Z) x :
  0 ≤ i → l !! Z.to_nat i = Some x → py_index l i = Returned x.
Proof.
  intros Hi Hx. unfold py_index.
  pose proof (lookup_lt_Some _ _ _ Hx).
  rewrite (proj2 (Z.ltb_ge i 0)) by lia.
  rewrite (proj2 (Z.leb_le 0 i)) by lia.
  rewrite (proj2 (Z.ltb_lt i _)) by lia.
  simpl. by rewrite Hx.
Qed.

Lemma py_index_empty {A} (i : Z) : py_index (@nil A) i = Raised IndexError.
Proof.
  unfold py_index. simpl.
  destruct (i <? 0) eqn:Hi; destruct (_ && _) eqn:Hb; try done;
    apply andb_prop in Hb as [?%Z.leb_le ?%Z.ltb_lt]; apply Z.ltb_ge in Hi || apply Z.ltb_lt in Hi; lia.
Qed.

Section CoordinatorFacts.
Variable fs : string → FileRead.

(** *** Resolution *)

Lemma read_manifest_outcome path :
  read_manifest fs path =
    match failure (fs path) with
    | Some e => Raised e
    | None => Returned (manifest_entries (lines (fs path)))
    end.
Proof.
  unfold read_manifest, result_of, with_open_lines.
  set (step := fun (files : list string) line =>
                 let s := PyStr.strip line in
                 if String.eqb s "" then files else files ++ [s]).
  assert (∀ ls acc, foldl step acc ls = acc ++ manifest_entries ls) as Hfold.
  { induction ls as [|l ls IH]; intros acc; simpl.
    - by rewrite app_nil_r.
    - rewrite IH. unfold step, manifest_entries. simpl.
      destruct (String.eqb (PyStr.strip l) ""); [done|].
      by rewrite <- app_assoc. }
  unfold bind. rewrite (for_each_returns _ step).
  - rewrite Hfold. by destruct (failure (fs path)).
  - intros line files. unfold step. simpl.
    by destruct (String.eqb (PyStr.strip line) "").
Qed.

Lemma resolve_file_list_returns args w :
  resolve_file_list fs args w
  = (w ++ resolve_events fs args, Returned (resolved fs args)).
Proof.
  unfold resolved, resolve_events, resolve_file_list.
  destruct (PyStr.endswith (input args) ".txt").
  - unfold try_except, bind, call. rewrite read_manifest_outcome.
    destruct (failure (fs (input args))); simpl; by rewrite ?app_nil_r.
  - destruct (PyStr.contains "{n}" (input args)).
    + destruct (count args <=? 0); simpl; by rewrite ?app_nil_r.
    + simpl. by rewrite app_nil_r.
Qed.

(** *** Dispatch *)

Lemma dispatch_returns assignments size w :
  length assignments = Z.to_nat size →
  dispatch assignments size w = (w ++ send_events assignments size, Returned tt).
Proof.
  intros Hlen. unfold dispatch, send_events.
  rewrite (for_each_returns_in _
             (fun w r => w ++ [Send (assignment_of assignments r) r 11])).
  - by rewrite foldl_emit.
  - intros r w' [? ?]%elem_of_range.
    destruct (lookup_lt_is_Some_2 assignments (Z.to_nat r)) as [a Ha]; [lia|].
    erewrite bind_returned by (unfold call; by erewrite py_index_lookup by (done || lia)).
    unfold assignment_of. by rewrite Ha.
Qed.

(** *** Receiving *)

Lemma sent_to_skip r w w' :
  forallb (fun e => negb (is_send e)) w = true →
  sent_to r (w ++ w') = sent_to r w'.
Proof.
  induction w as [|e w IH]; [done|]. simpl.
  intros [He Hw]%andb_prop. destruct e; try done; by apply IH.
Qed.

Lemma sent_to_extend r w w' a :
  sent_to r w = Some a → sent_to r (w ++ w') = Some a.
Proof.
  induction w as [|e w IH]; [done|]. simpl.
  destruct e; try done. by destruct (_ && _).
Qed.

Lemma sent_to_sends (payload : Z → list string) r (m : nat) k w' :
  k ≤ r → r < k + Z.of_nat m →
  sent_to r (((fun d => Send (payload d) d 11) <$> seqZ k (Z.of_nat m)) ++ w')
  = Some (payload r).
Proof.
  revert k. induction m as [|m IH]; intros k Hk Hr; [lia|].
  rewrite seqZ_cons by lia. simpl.
  destruct (Z.eqb_spec k r) as [->|Hne]; [done|]. simpl.
  replace (Z.pred (Z.of_nat (S m))) with (Z.of_nat m) by lia.
  apply IH; lia.
Qed.

Lemma comm_recv_returns r w a :
  sent_to r w = Some a →
  comm_recv fs r 22 w = (w ++ [Recv r 22], Returned (bump (tags fs a) ∅)).
Proof.
  intros Hs. unfold comm_recv, worker. by rewrite Hs, analyse_files_tags.
Qed.

Lemma receive_loop (asg : Z → list string) (rs : list Z) acc w :
  (∀ r, r ∈ rs → sent_to r w = Some (asg r)) →
  fold_each
    (fun master_counts r =>
       let* wc := comm_recv fs r 22 in ret (dict_add master_counts wc))
    acc rs w
  = (w ++ ((fun r => Recv r 22) <$> rs),
     Returned (foldl dict_add acc ((fun r => bump (tags fs (asg r)) ∅) <$> rs))).
Proof.
  revert acc w. induction rs as [|r rs IH]; intros acc w Hsent; simpl.
  - by rewrite app_nil_r.
  - erewrite bind_returned.
    2:{ erewrite bind_returned by (apply comm_recv_returns, Hsent; left).
        reflexivity. }
    rewrite IH.
    + by rewrite <- app_assoc.
    + intros r' Hr'. apply sent_to_extend, Hsent. by right.
Qed.

Lemma collect_returns (asg : Z → list string) my_files size w :
  (∀ r, r ∈ range 1 size → sent_to r w = Some (asg r)) →
  collect fs my_files size w
  = (w ++ recv_events size,
     Returned (foldl dict_add (bump (tags fs my_files) ∅)
                 ((fun r => bump (tags fs (asg r)) ∅) <$> range 1 size))).
Proof.
  intros Hsent. unfold collect.
  erewrite bind_returned by (unfold call; by rewrite analyse_files_tags).
  by apply receive_loop.
Qed.

(** *** The report *)

Lemma report_counts_returns master_counts w :
  report_counts master_counts w = (w ++ report_events master_counts, Returned tt).
Proof.
  unfold report_counts, report_events, bind, emit, modify. simpl.
  destruct (0 <? get0 master_counts ERRORS_TAG); simpl;
    by rewrite <- !app_assoc.
Qed.

(** The timings block appends its lines to the trace; whether it returns
    depends on the durations only. *)
Lemma report_timings_frame seq_time parallel_time size w :
  report_timings seq_time parallel_time size w
  = (w ++ timing_events seq_time parallel_time size,
     timing_outcome seq_time parallel_time size).
Proof.
  unfold timing_events, timing_outcome, report_timings, bind, emit, modify, call, ret.
  destruct seq_time as [st|]; simpl.
  - destruct (positive st); simpl.
    + destruct (py_truediv st parallel_time) as [speedup| |]; simpl; [|done..].
      destruct (py_truediv speedup (inject_Z size)); simpl; [|done..].
      by rewrite <- !app_assoc.
    + by rewrite <- !app_assoc.
  - by rewrite <- !app_assoc.
Qed.

Lemma report_frame master_counts seq_time parallel_time size w :
  report master_counts seq_time parallel_time size w
  = (w ++ report_events master_counts ++ timing_events seq_time parallel_time size,
     timing_outcome seq_time parallel_time size).
Proof.
  unfold report. erewrite bind_returned by apply report_counts_returns.
  by rewrite report_timings_frame, <- app_assoc.
Qed.

(** *** The baseline *)

Lemma baseline_returns clock args file_list w :
  baseline fs clock args file_list w
  = (w ++ baseline_events (no_seq args), Returned (seq_time_of clock (no_seq args))).
Proof.
  unfold baseline, seq_time_of. destruct (no_seq args); simpl.
  - unfold ret. by rewrite app_nil_r.
  - unfold bind, emit, modify, call, ret. rewrite analyse_files_tags.
    by rewrite <- app_assoc.
Qed.

End CoordinatorFacts.

(** ** A whole run of the coordinator *)

Section RunFacts.
Variable fs : string → FileRead.

Lemma emit_returns e (w : World) : emit e w = (w ++ [e], Returned tt).
Proof. done. Qed.

Lemma resolve_events_no_send args :
  forallb (fun e => negb (is_send e)) (resolve_events fs args) = true.
Proof.
  unfold resolve_events, resolve_file_list.
  destruct (PyStr.endswith (input args) ".txt").
  - unfold try_except, bind, call. rewrite read_manifest_outcome.
    by destruct (failure (fs (input args))).
  - destruct (PyStr.contains "{n}" (input args)); [|done].
    by destruct (count args <=? 0).
Qed.

(** The assignments of ranks 1 and above are the chunks after the first. *)
Lemma assignments_tail (assignments : list (list string)) size :
  length assignments = Z.to_nat size →
  assignment_of assignments <$> range 1 size = drop 1 assignments.
Proof.
  intros Hlen. apply list_eq; intros i.
  rewrite list_lookup_fmap, lookup_drop. unfold range, assignment_of.
  destruct (decide (Z.of_nat i < size - 1)) as [Hi|Hi].
  - rewrite lookup_seqZ_lt by done. simpl.
    replace (Z.to_nat (1 + Z.of_nat i)) with (1 + i)%nat by lia.
    destruct (lookup_lt_is_Some_2 assignments (1 + i)) as [a Ha]; [lia|].
    by rewrite Ha.
  - rewrite lookup_seqZ_ge by lia. simpl.
    symmetry. apply lookup_ge_None. lia.
Qed.

(** Folding the partial results of a list of chunks counts the tags of all
    their files. *)
Lemma merge_partials (ts : list string) (chunks : list (list string)) :
  foldl dict_add (bump ts ∅) ((fun l => bump (tags fs l) ∅) <$> chunks)
  = bump (ts ++ tags fs (concat chunks)) ∅.
Proof.
  revert ts. induction chunks as [|l chunks IH]; intros ts; simpl.
  - by rewrite app_nil_r.
  - rewrite dict_add_bump, IH, tags_app. by rewrite <- app_assoc.
Qed.

Lemma merge_chunk_list (file_list : list string) size :
  1 ≤ size →
  ∃ first others,
    chunk_list file_list size = first :: others ∧
    foldl dict_add (bump (tags fs first) ∅)
      ((fun l => bump (tags fs l) ∅) <$> others)
    = bump (tags fs file_list) ∅.
Proof.
  intros Hsize.
  pose proof (chunk_list_length file_list size ltac:(lia)) as Hlen.
  pose proof (chunk_list_concat file_list size ltac:(lia)) as Hcat.
  destruct (chunk_list file_list size) as [|first others]; [simpl in Hlen; lia|].
  exists first, others. split; [done|].
  rewrite merge_partials, <- tags_app. by rewrite <- Hcat.
Qed.

(** With at least one process the run reaches line 131 with the counts of the
    whole resolved list, after this exact trace. *)
Lemma coordinate_run clock args size :
  1 ≤ size →
  coordinate fs clock args size [] =
    let file_list := fst (resolved fs args) in
    (resolve_events fs args
     ++ [PrintFound (Z.of_nat (length file_list)) (snd (resolved fs args))]
     ++ send_events (chunk_list file_list size) size
     ++ baseline_events (no_seq args) ++ [PrintStarting; Barrier]
     ++ recv_events size,
     Returned (bump (tags fs file_list) ∅,
               seq_time_of clock (no_seq args), parallel_time_of clock)).
Proof.
  intros Hsize. unfold coordinate.
  erewrite bind_returned by apply resolve_file_list_returns.
  destruct (resolved fs args) as [file_list mode]. cbv zeta. simpl fst. simpl snd.
  pose proof (chunk_list_length file_list size ltac:(lia)) as Hlen.
  destruct (merge_chunk_list file_list size Hsize) as (first & others & Hch & Hmerge).
  erewrite bind_returned by apply emit_returns.
  erewrite bind_returned by apply dispatch_returns, Hlen.
  erewrite bind_returned
    by (unfold call; erewrite (py_index_lookup _ 0 first) by (by rewrite ?Hch); done).
  erewrite bind_returned by apply baseline_returns.
  erewrite bind_returned by apply emit_returns.
  erewrite bind_returned by apply emit_returns.
  erewrite bind_returned.
  2:{ apply (collect_returns fs (assignment_of (chunk_list file_list size))).
      intros r [? ?]%elem_of_range.
      rewrite <- !app_assoc. simpl.
      rewrite sent_to_skip by apply resolve_events_no_send. simpl.
      unfold send_events, range.
      rewrite <- (Z2Nat.id (size - 1)) by lia.
      apply (sent_to_sends (assignment_of (chunk_list file_list size))); lia. }
  unfold ret, parallel_time_of.
  assert ((fun r => bump (tags fs (assignment_of (chunk_list file_list size) r)) ∅)
            <$> range 1 size
          = (fun l => bump (tags fs l) ∅) <$> others) as ->.
  { transitivity ((fun l => bump (tags fs l) ∅)
                    <$> (assignment_of (chunk_list file_list size) <$> range 1 size)).
    - by rewrite <- list_fmap_compose.
    - by rewrite assignments_tail, Hch. }
  rewrite Hmerge.
  f_equal. rewrite <- !app_assoc. done.
Qed.

(** A whole run with at least one process: the trace, through the totals and
    the timings, and how the run ends.  It returns the counts unless a
    division of the timings block raises. *)
Lemma main_rank0_run clock args size :
  1 ≤ size →
  main_rank0 fs clock args size [] =
    let file_list := fst (resolved fs args) in
    let total := bump (tags fs file_list) ∅ in
    let seq_time := seq_time_of clock (no_seq args) in
    let parallel_time := parallel_time_of clock in
    (resolve_events fs args
     ++ [PrintFound (Z.of_nat (length file_list)) (snd (resolved fs args))]
     ++ send_events (chunk_list file_list size) size
     ++ closing_events (no_seq args) size total
     ++ timing_events seq_time parallel_time size,
     match timing_outcome seq_time parallel_time size with
     | Returned _ => Returned total
     | Raised e => Raised e
     | Blocked => Blocked
     end).
Proof.
  intros Hsize. unfold main_rank0.
  erewrite bind_returned by (by apply coordinate_run).
  cbv zeta. unfold bind. rewrite report_frame.
  unfold closing_events. rewrite <- !app_assoc.
  by destruct (timing_outcome _ _ _).
Qed.

(** With no process at all there is no slice 0 to keep. *)
Lemma coordinate_no_process clock args size :
  size ≤ 0 →
  coordinate fs clock args size [] =
    (resolve_events fs args
     ++ [PrintFound (Z.of_nat (length (fst (resolved fs args)))) (snd (resolved fs args))],
     Raised IndexError).
Proof.
  intros Hsize. unfold coordinate.
  erewrite bind_returned by apply resolve_file_list_returns.
  destruct (resolved fs args) as [file_list mode]. cbv zeta. simpl fst. simpl snd.
  erewrite bind_returned by apply emit_returns.
  unfold chunk_list. rewrite (proj2 (Z.leb_le size 0)) by done.
  unfold dispatch, range. rewrite seqZ_nil by lia. simpl.
  unfold bind, ret, call. by rewrite py_index_empty.
Qed.

Lemma main_rank0_no_process clock args size :
  size ≤ 0 →
  main_rank0 fs clock args size [] =
    (resolve_events fs args
     ++ [PrintFound (Z.of_nat (length (fst (resolved fs args)))) (snd (resolved fs args))],
     Raised IndexError).
Proof.
  intros Hsize. unfold main_rank0.
  by erewrite bind_raised by (by apply coordinate_no_process).
Qed.

(** The timings block: when it raises, and what it never prints. *)
Lemma timing_outcome_cases seq_time parallel_time size :
  timing_outcome seq_time parallel_time size = Returned tt
  ∨ timing_outcome seq_time parallel_time size = Raised ZeroDivisionError.
Proof.
  unfold timing_outcome, report_timings, bind, emit, modify, call, ret, py_truediv.
  destruct seq_time as [st|]; simpl; [|by left].
  destruct (positive st); simpl; [|by left].
  destruct (Qeq_bool parallel_time 0); simpl; [by right|].
  destruct (Qeq_bool (inject_Z size) 0); simpl; [by right | by left].
Qed.

Lemma timing_outcome_no_baseline parallel_time size :
  timing_outcome None parallel_time size = Returned tt.
Proof. reflexivity. Qed.

Lemma timing_events_kinds seq_time parallel_time size (p : Event → bool) :
  p PrintParallelTime = true → p PrintSequentialTime = true → p PrintSpeedup = true →
  p PrintEfficiency = true → p PrintSequentialNA = true → p PrintRule = true →
  forallb p (timing_events seq_time parallel_time size) = true.
Proof.
  intros H1 H2 H3 H4 H5 H6.
  unfold timing_events, report_timings, bind, emit, modify, call, ret, py_truediv.
  destruct seq_time as [st|]; simpl.
  - destruct (positive st); simpl.
    + destruct (Qeq_bool parallel_time 0); simpl; [by rewrite H1|].
      destruct (Qeq_bool (inject_Z size) 0); simpl; [by rewrite H1|].
      by rewrite H1, H2, H3, H4, H6.
    + by rewrite H1, H5, H6.
  - by rewrite H1, H5, H6.
Qed.

End RunFacts.

(** ** The events of a run, by kind *)

Lemma forallb_fmap_const {B} (p : Event → bool) (ev : B → Event) (l : list B) :
  (∀ x, p (ev x) = true) → forallb p (ev <$> l) = true.
Proof.
  intros Hp. induction l as [|x l IH]; [done|].
  change (forallb p (ev <$> x :: l)) with (p (ev x) && forallb p (ev <$> l)).
  by rewrite Hp, IH.
Qed.

Lemma forallb_elem_of (p : Event → bool) (l : list Event) e :
  forallb p l = true → e ∈ l → p e = true.
Proof.
  intros Hall Hin. rewrite forallb_forall in Hall.
  by apply Hall, list_elem_of_In.
Qed.

Section ReportFacts.
Variable fs : string → FileRead.

Lemma resolve_events_stderr args :
  forallb is_stderr (resolve_events fs args) = true.
Proof.
  unfold resolve_events, resolve_file_list.
  destruct (PyStr.endswith (input args) ".txt").
  - unfold try_except, bind, call. rewrite read_manifest_outcome.
    by destruct (failure (fs (input args))).
  - destruct (PyStr.contains "{n}" (input args)); [|done].
    by destruct (count args <=? 0).
Qed.

Lemma closing_events_no_send no_seq size total :
  forallb (fun e => negb (is_send e)) (closing_events no_seq size total) = true.
Proof.
  unfold closing_events, report_events, recv_events.
  rewrite !forallb_app, !forallb_fmap_const by done.
  destruct no_seq, (0 <? get0 total ERRORS_TAG); done.
Qed.

(** Before the report nothing mentions the open errors. *)
Lemma open_errors_only_in_report args size no_seq n :
  PrintOpenErrors n ∉
    resolve_events fs args
    ++ [PrintFound (Z.of_nat (length (fst (resolved fs args)))) (snd (resolved fs args))]
    ++ send_events (chunk_list (fst (resolved fs args)) size) size
    ++ baseline_events no_seq ++ [PrintStarting; Barrier] ++ recv_events size.
Proof.
  rewrite !elem_of_app. intros [H|[H|[H|[H|[H|H]]]]].
  - by apply (forallb_elem_of _ _ _ (resolve_events_stderr args)) in H.
  - elem_cases H.
  - by apply list_elem_of_fmap in H as (r & ? & _).
  - destruct no_seq; elem_cases H.
  - elem_cases H.
  - by apply list_elem_of_fmap in H as (r & ? & _).
Qed.

Lemma open_errors_in_report (total : Counter) n :
  PrintOpenErrors n ∈ report_events total
  ↔ n = get0 total ERRORS_TAG ∧ 0 < n.
Proof.
  unfold report_events. simpl.
  destruct (Z.ltb_spec 0 (get0 total ERRORS_TAG)) as [Hpos|Hle]; simpl; split.
  - intros H. elem_cases H. injection H as ->. done.
  - intros [-> _]. do 7 right. left.
  - intros H. elem_cases H.
  - intros [-> ?]. lia.
Qed.

Lemma levels_in_report (total : Counter) lvl :
  lvl ∈ LOG_LEVELS → PrintLevel lvl (get0 total lvl) ∈ report_events total.
Proof.
  intros Hlvl. unfold report_events.
  rewrite !elem_of_app. right. left.
  apply list_elem_of_fmap. by exists lvl.
Qed.

Lemma timing_events_no_send seq_time parallel_time size :
  forallb (fun e => negb (is_send e)) (timing_events seq_time parallel_time size) = true.
Proof. by apply timing_events_kinds. Qed.

Lemma timing_events_no_total seq_time parallel_time size e :
  e ∈ timing_events seq_time parallel_time size → is_total_line e = false.
Proof.
  intros He. apply negb_true_iff.
  revert He. apply (forallb_elem_of (fun e => negb (is_total_line e))).
  by apply timing_events_kinds.
Qed.

End ReportFacts.

(** ** Filtering the trace of a run *)

Lemma filter_keep_all (p : Event → bool) (l : list Event) :
  forallb p l = true → filter (fun e => p e = true) l = l.
Proof.
  induction l as [|e l IH]; [done|]. simpl.
  intros [He Hl]%andb_prop. rewrite filter_cons, decide_True by done.
  by rewrite IH.
Qed.

Lemma filter_drop_all (p : Event → bool) (l : list Event) :
  forallb (fun e => negb (p e)) l = true → filter (fun e => p e = true) l = [].
Proof.
  induction l as [|e l IH]; [done|]. simpl.
  intros [He%negb_true_iff Hl]%andb_prop.
  rewrite filter_cons, decide_False by congruence. by apply IH.
Qed.

(** What a test keeps of the trace of a run, when it keeps neither what the
    baseline prints nor what the timings block prints. *)
Lemma filter_run_trace fs clock args size (p : Event → bool) :
  1 ≤ size →
  p PrintRunningBaseline = false → p PrintBaselineTime = false →
  p PrintParallelTime = false → p PrintSequentialTime = false →
  p PrintSpeedup = false → p PrintEfficiency = false →
  p PrintSequentialNA = false → p PrintRule = false →
  filter (fun e => p e = true) (fst (main_rank0 fs clock args size []))
  = filter (fun e => p e = true)
      (resolve_events fs args
       ++ [PrintFound (Z.of_nat (length (fst (resolved fs args)))) (snd (resolved fs args))]
       ++ send_events (chunk_list (fst (resolved fs args)) size) size
       ++ [PrintStarting; Barrier] ++ recv_events size
       ++ report_events (bump (tags fs (fst (resolved fs args))) ∅)).
Proof.
  intros Hsize Hb1 Hb2 H1 H2 H3 H4 H5 H6.
  rewrite main_rank0_run by done. cbv zeta. cbn [fst]. unfold closing_events.
  assert (filter (fun e => p e = true) (baseline_events (no_seq args)) = []) as Hbase.
  { apply filter_drop_all. destruct (no_seq args); simpl; by rewrite ?Hb1, ?Hb2. }
  assert (filter (fun e => p e = true)
            (timing_events (seq_time_of clock (no_seq args)) (parallel_time_of clock) size)
          = []) as Htime.
  { apply filter_drop_all, timing_events_kinds; by rewrite ?H1, ?H2, ?H3, ?H4, ?H5, ?H6. }
  rewrite !filter_app, Hbase, Htime. by rewrite !app_nil_r.
Qed.

(** The trace of a run, cut at the report of the totals. *)
Lemma main_rank0_trace fs clock args size :
  1 ≤ size →
  fst (main_rank0 fs clock args size []) =
    (resolve_events fs args
     ++ [PrintFound (Z.of_nat (length (fst (resolved fs args)))) (snd (resolved fs args))]
     ++ send_events (chunk_list (fst (resolved fs args)) size) size
     ++ baseline_events (no_seq args) ++ [PrintStarting; Barrier] ++ recv_events size)
    ++ report_events (bump (tags fs (fst (resolved fs args))) ∅)
    ++ timing_events (seq_time_of clock (no_seq args)) (parallel_time_of clock) size.
Proof.
  intros Hsize. rewrite main_rank0_run by done. cbv zeta. cbn [fst].
  unfold closing_events. by rewrite <- !app_assoc.
Qed.

(** ** Configuration errors *)

Lemma configuration_error_resolution fs args :
  configuration_error fs args →
  ∃ report,
    is_stderr report = true
    ∧ resolve_events fs args = [report]
    ∧ resolved fs args = ([], false).
Proof.
  unfold resolve_events, resolved, resolve_file_list.
  intros [[Htxt [e He]]|(Htxt & Hpat & Hcount)]; rewrite Htxt.
  - exists (StderrManifestFailed (input args) e).
    unfold try_except, bind, call. by rewrite He.
  - exists StderrPatternNeedsCount.
    rewrite Hpat, (proj2 (Z.leb_le (count args) 0)) by done. done.
Qed.

Lemma chunk_list_nil_assignment {A} size r :
  default [] (chunk_list (@nil A) size !! r) = [].
Proof.
  destruct (chunk_list [] size !! r) as [c|] eqn:Hc; [|done]. simpl.
  destruct (Z.le_gt_cases size 0) as [Hle|Hgt].
  - unfold chunk_list in Hc. by rewrite (proj2 (Z.leb_le size 0)) in Hc by done.
  - apply chunk_lookup_length in Hc; [|lia]. simpl in Hc.
    rewrite Zdiv_0_l, Zmod_0_l in Hc.
    destruct (Z.ltb_spec (Z.of_nat r) 0); [lia|].
    destruct c; [done | simpl in Hc; lia].
Qed.

Example manifest_unreadable_is_configuration_error :
  configuration_error Demo.fs (mkArgs "missing.txt" 0 true)
  ∧ fst (main_rank0 Demo.fs Demo.clock (mkArgs "missing.txt" 0 true) 3 [])
    = [StderrManifestFailed "missing.txt" OSError; PrintFound 0 false;
       Send [] 1 11; Send [] 2 11; PrintStarting; Barrier; Recv 1 22; Recv 2 22;
       PrintRule; PrintTitle; PrintRule;
       PrintLevel "DEBUG" 0; PrintLevel "ERROR" 0; PrintLevel "INFO" 0;
       PrintLevel "WARN" 0; PrintRule; PrintParallelTime; PrintSequentialNA; PrintRule].
Proof.
  split.
  - left. split; [reflexivity|]. exists OSError. reflexivity.
  - vm_compute. reflexivity.
Qed.

(** ** Well-formed tag counts *)

Lemma valid_counter_bump fs file_list : valid_counter (bump (tags fs file_list) ∅).
Proof.
  intros k v. rewrite bump_lookup, get0_empty.
  case_decide as Hin; [|by rewrite lookup_empty].
  intros [= <-]. split; [by eapply tags_valid|].
  pose proof (occurrences_nonneg k (tags fs file_list)). lia.
Qed.

Lemma valid_counter_dict_add a b :
  valid_counter a → valid_counter b → valid_counter (dict_add a b).
Proof.
  intros Ha Hb k v. rewrite dict_add_lookup. unfold get0.
  destruct (b !! k) as [vb|] eqn:Hbk; [|apply Ha].
  intros [= <-]. destruct (Hb k vb Hbk) as [Hk Hvb]. split; [done|].
  destruct (a !! k) as [va|] eqn:Hak; simpl; [|lia].
  destruct (Ha k va Hak). lia.
Qed.

(** * The claims *)

(** C1.  For every file list [L] and participant count [N >= 1], the
    [analyse_files] results of the [N] chunks of [chunk_list L N], folded with
    [dict_add] as the coordinator does (its own chunk first, then the others in
    rank order), are exactly the result of one [analyse_files] pass over [L].
    Hence, in a run of the coordinator with [N] processes, and in particular
    with a single process, the mapping [master_counts] holds at the end of the
    timed section (line 131) is the mapping of the sequential pass over the
    resolved file list, whatever the clock reads. *)
Theorem C1_parallel_equals_sequential
    (fs : string → FileRead) (L : list string) (N : Z) :
  1 ≤ N →
  (∃ (first : Counter) (others : list Counter),
     analyse_files fs <$> chunk_list L N = Returned first :: (Returned <$> others)
     ∧ analyse_files fs L = Returned (foldl dict_add first others))
  ∧ (∀ clock args trace mode,
       resolve_file_list fs args [] = (trace, Returned (L, mode)) →
       counts_of (result_of (coordinate fs clock args N) []) = analyse_files fs L
       ∧ counts_of (result_of (coordinate fs clock args 1) []) = analyse_files fs L).
Proof.
  intros HN. split.
  - destruct (merge_chunk_list fs L N HN) as (first & others & Hch & Hmerge).
    exists (bump (tags fs first) ∅), ((fun l => bump (tags fs l) ∅) <$> others).
    split.
    + rewrite Hch, fmap_cons, analyse_files_tags. f_equal.
      rewrite <- list_fmap_compose. apply list_fmap_ext.
      intros i l _. simpl. apply analyse_files_tags.
    + by rewrite Hmerge, analyse_files_tags.
  - intros clock args trace mode Hres.
    assert (fst (resolved fs args) = L) as HL.
    { unfold resolved. by rewrite Hres. }
    unfold result_of. rewrite !coordinate_run by lia. cbv zeta.
    by rewrite HL, analyse_files_tags.
Qed.

Lemma C1_witness :
  1 ≤ 2 ∧
  (∃ (first : Counter) (others : list Counter),
     analyse_files Demo.fs <$> chunk_list ["a.log"; "b.log"] 2
       = Returned first :: (Returned <$> others)
     ∧ analyse_files Demo.fs ["a.log"; "b.log"] = Returned (foldl dict_add first others))
  ∧ (∀ clock args trace mode,
       resolve_file_list Demo.fs args [] = (trace, Returned (["a.log"; "b.log"], mode)) →
       counts_of (result_of (coordinate Demo.fs clock args 2) [])
       = analyse_files Demo.fs ["a.log"; "b.log"]
       ∧ counts_of (result_of (coordinate Demo.fs clock args 1) [])
         = analyse_files Demo.fs ["a.log"; "b.log"]).
Proof.
  split; [lia|].
  apply (C1_parallel_equals_sequential Demo.fs ["a.log"; "b.log"] 2). lia.
Defined.

(** C2.  For every list [L] and participant count [N >= 1], [chunk_list L N]
    has exactly [N] chunks; chunk [i] is the contiguous slice of [L] of length
    [len / N], plus one when [i < len mod N], that starts where chunk [i - 1]
    ends; joined in order the chunks give back [L], so nothing is duplicated or
    left out; any two chunk lengths differ by at most one; and a list of 7
    identifiers with [N = 3] is cut into sizes 3, 2, 2. *)
Theorem C2_chunk_list_partition {A} (L : list A) (N : Z) :
  1 ≤ N →
  let chunks := chunk_list L N in
  let len := Z.of_nat (length L) in
  length chunks = Z.to_nat N
  ∧ concat chunks = L
  ∧ (∀ i : nat, Z.of_nat i < N →
       chunks !! i =
         Some (take (Z.to_nat (len / N + if Z.of_nat i <? len mod N then 1 else 0))
                 (drop (Z.to_nat (Z.of_nat i * (len / N) + Z.min (Z.of_nat i) (len mod N))) L)))
  ∧ (∀ (i : nat) c, chunks !! i = Some c →
       Z.of_nat (length c) = len / N + if Z.of_nat i <? len mod N then 1 else 0)
  ∧ (∀ (i j : nat) ci cj, chunks !! i = Some ci → chunks !! j = Some cj →
       Z.abs (Z.of_nat (length ci) - Z.of_nat (length cj)) ≤ 1)
  ∧ (length L = 7%nat → N = 3 → length <$> chunks = [3; 2; 2]%nat).
Proof.
  intros HN chunks len. subst chunks len.
  assert (0 < N) as Hpos by lia.
  split; [by apply chunk_list_length|].
  split; [by apply chunk_list_concat|].
  split; [intros i Hi; by apply chunk_lookup|].
  split; [intros i c; by apply chunk_lookup_length|].
  split.
  - intros i j ci cj Hi Hj.
    rewrite (chunk_lookup_length L N Hpos i ci Hi).
    rewrite (chunk_lookup_length L N Hpos j cj Hj).
    destruct (Z.of_nat i <? _), (Z.of_nat j <? _); lia.
  - intros H7 ->.
    do 8 (destruct L as [|? L]; try discriminate H7).
    vm_compute. reflexivity.
Qed.

Lemma C2_witness :
  1 ≤ 3 ∧
  let L := ["f1"; "f2"; "f3"; "f4"; "f5"; "f6"; "f7"] in
  let chunks := chunk_list L 3 in
  let len := Z.of_nat (length L) in
  length chunks = Z.to_nat 3
  ∧ concat chunks = L
  ∧ (∀ i : nat, Z.of_nat i < 3 →
       chunks !! i =
         Some (take (Z.to_nat (len / 3 + if Z.of_nat i <? len mod 3 then 1 else 0))
                 (drop (Z.to_nat (Z.of_nat i * (len / 3) + Z.min (Z.of_nat i) (len mod 3))) L)))
  ∧ (∀ (i : nat) c, chunks !! i = Some c →
       Z.of_nat (length c) = len / 3 + if Z.of_nat i <? len mod 3 then 1 else 0)
  ∧ (∀ (i j : nat) ci cj, chunks !! i = Some ci → chunks !! j = Some cj →
       Z.abs (Z.of_nat (length ci) - Z.of_nat (length cj)) ≤ 1)
  ∧ (length L = 7%nat → 3 = 3 → length <$> chunks = [3; 2; 2]%nat).
Proof.
  split; [lia|].
  apply (C2_chunk_list_partition ["f1"; "f2"; "f3"; "f4"; "f5"; "f6"; "f7"] 3). lia.
Defined.

(** C3.  [analyse_files] returns normally on every file list, whatever the
    files do.  When the list holds one identifier that cannot be opened among
    readable ones, the result is the result for the readable files alone with
    the error tag set to exactly 1: the counts of the levels are unchanged. *)
Theorem C3_error_isolation
    (fs : string → FileRead) (before after : list string) (bad : string) :
  unreadable (fs bad) →
  (∀ f, f ∈ before ++ after → readable (fs f)) →
  (∀ file_list, ∃ counts, analyse_files fs file_list = Returned counts)
  ∧ ∃ good : Counter,
      analyse_files fs (before ++ after) = Returned good
      ∧ good !! ERRORS_TAG = None
      ∧ analyse_files fs (before ++ bad :: after) = Returned (<[ERRORS_TAG := 1]> good)
      ∧ get0 (<[ERRORS_TAG := 1]> good) ERRORS_TAG = 1
      ∧ (∀ lvl, lvl ∈ LOG_LEVELS → get0 (<[ERRORS_TAG := 1]> good) lvl = get0 good lvl).
Proof.
  intros [Hlines Hfail] Hgood.
  split; [intros file_list; eexists; apply analyse_files_tags|].
  assert (∀ l, (∀ f, f ∈ l → readable (fs f)) → ERRORS_TAG ∉ tags fs l) as Hclean.
  { induction l as [|f l IH]; intros Hl; [by intros ?%elem_of_nil|].
    change (tags fs (f :: l)) with (file_keys fs f ++ tags fs l).
    rewrite elem_of_app. intros [Hin|Hin].
    - unfold file_keys in Hin. rewrite (Hl f) in Hin by left.
      rewrite app_nil_r in Hin.
      apply list_elem_of_omap in Hin as (line & _ & Hk).
      apply line_key_level in Hk. vm_compute in Hk.
      repeat (apply elem_of_cons in Hk as [Hk|Hk]; [discriminate Hk|]).
      by apply elem_of_nil in Hk.
    - revert Hin. apply IH. intros g Hg. apply Hl. by right. }
  assert (file_keys fs bad = [ERRORS_TAG]) as Hbad.
  { unfold file_keys. rewrite Hlines. simpl.
    revert Hfail. by destruct (failure (fs bad)). }
  assert (ERRORS_TAG ∉ tags fs (before ++ after)) as Hnone by by apply Hclean.
  exists (bump (tags fs (before ++ after)) ∅).
  split; [apply analyse_files_tags|].
  split; [by rewrite bump_lookup, decide_False|].
  split.
  - rewrite analyse_files_tags. f_equal.
    change (bad :: after) with ([bad] ++ after).
    rewrite !tags_app. change (tags fs [bad]) with (file_keys fs bad ++ []).
    rewrite app_nil_r, Hbad.
    rewrite tags_app in Hnone. apply not_elem_of_app in Hnone as [Hb Ha].
    by apply bump_fresh_tag.
  - split.
    + unfold get0. by rewrite lookup_insert_eq.
    + intros lvl Hlvl. unfold get0. rewrite lookup_insert_ne; [done|].
      intros <-. vm_compute in Hlvl.
      repeat (apply elem_of_cons in Hlvl as [Hlvl|Hlvl]; [discriminate Hlvl|]).
      by apply elem_of_nil in Hlvl.
Qed.

Lemma C3_witness :
  unreadable (Demo.fs "b.log") ∧
  (∀ f, f ∈ ["a.log"] ++ ["a.log"] → readable (Demo.fs f)) ∧
  ((∀ file_list, ∃ counts, analyse_files Demo.fs file_list = Returned counts)
   ∧ ∃ good : Counter,
       analyse_files Demo.fs (["a.log"] ++ ["a.log"]) = Returned good
       ∧ good !! ERRORS_TAG = None
       ∧ analyse_files Demo.fs (["a.log"] ++ "b.log" :: ["a.log"])
         = Returned (<[ERRORS_TAG := 1]> good)
       ∧ get0 (<[ERRORS_TAG := 1]> good) ERRORS_TAG = 1
       ∧ (∀ lvl, lvl ∈ LOG_LEVELS → get0 (<[ERRORS_TAG := 1]> good) lvl = get0 good lvl)).
Proof.
  assert (unreadable (Demo.fs "b.log")) as Hbad.
  { split; [reflexivity | discriminate]. }
  assert (∀ f, f ∈ ["a.log"] ++ ["a.log"] → readable (Demo.fs f)) as Hgood.
  { intros f Hf. simpl in Hf.
    apply elem_of_cons in Hf as [->|Hf]; [reflexivity|].
    apply elem_of_cons in Hf as [->|Hf]; [reflexivity|].
    by apply elem_of_nil in Hf. }
  split; [exact Hbad|]. split; [exact Hgood|].
  exact (C3_error_isolation Demo.fs ["a.log"] ["a.log"] "b.log" Hbad Hgood).
Defined.

(** C4, as stated, fails: a run in which every file is readable has error
    total 0, and its report has no line for the error total. *)
Lemma C4_counterexample :
  snd (main_rank0 Demo.fs Demo.clock DemoClean.args 1 []) = Returned DemoClean.counts
  ∧ get0 DemoClean.counts ERRORS_TAG = 0
  ∧ ∀ n, PrintOpenErrors n ∉ fst (main_rank0 Demo.fs Demo.clock DemoClean.args 1 []).
Proof.
  split; [vm_compute; reflexivity|].
  split; [reflexivity|].
  intros n H. vm_compute in H. elem_cases H.
Qed.

(** C4, amended.  In every run, whatever the clock reads and however the
    timings block that follows ends, the report has one line per recognised
    level, with that level's total; it has the line for the error total
    exactly when that total is positive, and then it shows the total.  The
    totals are those of [master_counts] at the end of the timed section. *)
Theorem C4_error_total_reported_when_positive
    (fs : string → FileRead) (clock : Clock) (args : Args) (size : Z) :
  1 ≤ size →
  ∃ (counts : Counter) (seq_time : option Q) (parallel_time : Q),
    result_of (coordinate fs clock args size) []
    = Returned (counts, seq_time, parallel_time)
    ∧ (∀ lvl, lvl ∈ LOG_LEVELS →
         PrintLevel lvl (get0 counts lvl) ∈ fst (main_rank0 fs clock args size []))
    ∧ (∀ n, PrintOpenErrors n ∈ fst (main_rank0 fs clock args size [])
            ↔ n = get0 counts ERRORS_TAG ∧ 0 < n).
Proof.
  intros Hsize. unfold result_of.
  rewrite main_rank0_trace, coordinate_run by done. cbv zeta. cbn [snd].
  eexists _, _, _. split; [reflexivity|]. split.
  - intros lvl Hlvl. rewrite !elem_of_app. right. left.
    by apply levels_in_report.
  - intros n. rewrite <- open_errors_in_report.
    pose proof (open_errors_only_in_report fs args size (no_seq args) n) as Hpre.
    rewrite !elem_of_app in Hpre. rewrite !elem_of_app. split.
    + intros [H|[H|H]]; [tauto | done |].
      by apply timing_events_no_total in H.
    + intros H. right. by left.
Qed.

Lemma C4_witness :
  1 ≤ 2 ∧
  ∃ (counts : Counter) (seq_time : option Q) (parallel_time : Q),
    result_of (coordinate Demo.fs Demo.coarse_clock (mkArgs "files.txt" 0 false) 2) []
    = Returned (counts, seq_time, parallel_time)
    ∧ (∀ lvl, lvl ∈ LOG_LEVELS →
         PrintLevel lvl (get0 counts lvl)
         ∈ fst (main_rank0 Demo.fs Demo.coarse_clock (mkArgs "files.txt" 0 false) 2 []))
    ∧ (∀ n, PrintOpenErrors n
            ∈ fst (main_rank0 Demo.fs Demo.coarse_clock (mkArgs "files.txt" 0 false) 2 [])
            ↔ n = get0 counts ERRORS_TAG ∧ 0 < n).
Proof.
  split; [lia|].
  apply (C4_error_total_reported_when_positive
           Demo.fs Demo.coarse_clock (mkArgs "files.txt" 0 false) 2). lia.
Defined.

(** C5.  The additive merge is commutative and associative on the resulting
    mappings, so folding any collection of partial mappings into a running
    total gives the same final mapping whatever the order of arrival. *)
Theorem C5_merge_order_irrelevant
    (total : Counter) (partials reordered : list Counter) :
  Permutation partials reordered →
  foldl dict_add total partials = foldl dict_add total reordered
  ∧ (∀ a b : Counter, dict_add a b = dict_add b a)
  ∧ (∀ a b c : Counter, dict_add (dict_add a b) c = dict_add a (dict_add b c)).
Proof.
  intros Hperm. split; [by apply foldl_dict_add_perm|].
  split; [apply dict_add_comm | apply dict_add_assoc].
Qed.

Lemma C5_witness :
  Permutation [Demo.p1; Demo.p2; Demo.p3] [Demo.p3; Demo.p1; Demo.p2] ∧
  (foldl dict_add ∅ [Demo.p1; Demo.p2; Demo.p3]
   = foldl dict_add ∅ [Demo.p3; Demo.p1; Demo.p2]
   ∧ (∀ a b : Counter, dict_add a b = dict_add b a)
   ∧ (∀ a b c : Counter, dict_add (dict_add a b) c = dict_add a (dict_add b c))).
Proof.
  assert (Permutation [Demo.p1; Demo.p2; Demo.p3] [Demo.p3; Demo.p1; Demo.p2]) as Hperm.
  { apply (Permutation_app_comm [Demo.p1; Demo.p2] [Demo.p3]). }
  split; [exact Hperm|].
  exact (C5_merge_order_irrelevant ∅ _ _ Hperm).
Defined.

(** C6.  When the configuration is in error the coordinator reports it on the
    standard error stream before anything is sent.  The run is not abandoned:
    the file list is empty, so each worker rank, from 1 to [size - 1], is then
    sent exactly the empty assignment, no other message is sent in the rest of
    the run, and the counts at the end of the timed section are empty.  The
    dispatch is therefore never a partial one: no file identifier reaches any
    worker, and no worker is left without its message. *)
Theorem C6_configuration_error_before_dispatch
    (fs : string → FileRead) (clock : Clock) (args : Args) (size : Z) :
  1 ≤ size →
  configuration_error fs args →
  ∃ (report : Event) (rest : list Event),
    fst (main_rank0 fs clock args size []) =
      report :: PrintFound 0 false
        :: ((fun r => Send [] r 11) <$> range 1 size) ++ rest
    ∧ is_stderr report = true
    ∧ forallb (fun e => negb (is_send e)) rest = true
    ∧ counts_of (result_of (coordinate fs clock args size) []) = Returned ∅.
Proof.
  intros Hsize Herr.
  destruct (configuration_error_resolution fs args Herr) as (report & Hstderr & Hev & Hres).
  exists report,
    (closing_events (no_seq args) size ∅
     ++ timing_events (seq_time_of clock (no_seq args)) (parallel_time_of clock) size).
  split; [|split; [done | split]].
  - rewrite main_rank0_run by done. cbv zeta.
    rewrite Hev, Hres. simpl. do 2 f_equal.
    change (bump (tags fs []) ∅) with (∅ : Counter).
    f_equal. unfold send_events. apply list_fmap_ext.
    intros i r _. unfold assignment_of. by rewrite chunk_list_nil_assignment.
  - by rewrite forallb_app, closing_events_no_send, timing_events_no_send.
  - unfold result_of. rewrite coordinate_run by done. cbv zeta. by rewrite Hres.
Qed.

Lemma C6_witness :
  1 ≤ 3 ∧
  configuration_error Demo.fs (mkArgs "node{n}.log" 0 true) ∧
  ∃ (report : Event) (rest : list Event),
    fst (main_rank0 Demo.fs Demo.clock (mkArgs "node{n}.log" 0 true) 3 []) =
      report :: PrintFound 0 false
        :: ((fun r => Send [] r 11) <$> range 1 3) ++ rest
    ∧ is_stderr report = true
    ∧ forallb (fun e => negb (is_send e)) rest = true
    ∧ counts_of (result_of (coordinate Demo.fs Demo.clock (mkArgs "node{n}.log" 0 true) 3) [])
      = Returned ∅.
Proof.
  assert (configuration_error Demo.fs (mkArgs "node{n}.log" 0 true)) as Herr.
  { right. repeat split; simpl; lia. }
  split; [lia|]. split; [exact Herr|].
  apply (C6_configuration_error_before_dispatch
           Demo.fs Demo.clock (mkArgs "node{n}.log" 0 true) 3);
    [lia | exact Herr].
Defined.

(** C7.  Running the sequential baseline or skipping it does not change the
    distributed counts: whatever the clocks of the two runs read, the mapping
    [master_counts] holds at the end of the timed section is the same, the
    same messages are exchanged in the same order, and the report shows the
    same totals. *)
Theorem C7_baseline_does_not_affect_counts
    (fs : string → FileRead) (clock clock' : Clock)
    (input_arg : string) (cnt size : Z) :
  let with_baseline := mkArgs input_arg cnt false in
  let without_baseline := mkArgs input_arg cnt true in
  counts_of (result_of (coordinate fs clock with_baseline size) [])
  = counts_of (result_of (coordinate fs clock' without_baseline size) [])
  ∧ filter (fun e => is_message e = true) (fst (main_rank0 fs clock with_baseline size []))
    = filter (fun e => is_message e = true)
        (fst (main_rank0 fs clock' without_baseline size []))
  ∧ filter (fun e => is_total_line e = true)
      (fst (main_rank0 fs clock with_baseline size []))
    = filter (fun e => is_total_line e = true)
        (fst (main_rank0 fs clock' without_baseline size [])).
Proof.
  cbv zeta.
  assert (resolved fs (mkArgs input_arg cnt false) = resolved fs (mkArgs input_arg cnt true))
    as Hres by reflexivity.
  assert (resolve_events fs (mkArgs input_arg cnt false)
          = resolve_events fs (mkArgs input_arg cnt true)) as Hev by reflexivity.
  destruct (Z.le_gt_cases size 0) as [Hle|Hgt].
  - unfold result_of.
    rewrite !main_rank0_no_process, !coordinate_no_process by done.
    by rewrite Hres, Hev.
  - unfold result_of. rewrite !coordinate_run by lia. cbv zeta.
    rewrite !(filter_run_trace fs) by (done || lia).
    by rewrite Hres, Hev.
Qed.

(** C8.  Every mapping returned by [analyse_files], and every mapping built
    from such mappings with [dict_add], has its keys among the four recognised
    levels and the reserved error tag, and maps each key to a non-negative
    count. *)
Theorem C8_counter_keys_and_counts (fs : string → FileRead) (c : Counter) :
  produced fs c →
  ∀ k v, c !! k = Some v →
    (k ∈ ["DEBUG"; "ERROR"; "INFO"; "WARN"] ∨ k = "__errors__") ∧ 0 ≤ v.
Proof.
  induction 1 as [file_list counts Hrun|a b _ IHa _ IHb].
  - rewrite analyse_files_tags in Hrun. injection Hrun as <-.
    apply valid_counter_bump.
  - by apply valid_counter_dict_add.
Qed.

Lemma C8_witness :
  produced Demo.fs (dict_add Demo.expected Demo.expected) ∧
  ∀ k v, dict_add Demo.expected Demo.expected !! k = Some v →
    (k ∈ ["DEBUG"; "ERROR"; "INFO"; "WARN"] ∨ k = "__errors__") ∧ 0 ≤ v.
Proof.
  assert (produced Demo.fs Demo.expected) as Hp.
  { apply (produced_analyse Demo.fs ["a.log"; "b.log"]). vm_compute. reflexivity. }
  assert (produced Demo.fs (dict_add Demo.expected Demo.expected)) as Hpp.
  { by apply produced_merge. }
  split; [exact Hpp|].
  exact (C8_counter_keys_and_counts Demo.fs _ Hpp).
Defined.

(** C9.  [analyse_files] on the empty file list returns the empty mapping, in
    which every tag reads zero.  With more participants than files, every rank
    from the number of files on is assigned the empty list, so the worker at
    that rank returns that mapping. *)
Theorem C9_empty_workload
    (fs : string → FileRead) (L : list string) (N : Z) (rank : nat) :
  Z.of_nat (length L) ≤ Z.of_nat rank →
  Z.of_nat rank < N →
  analyse_files fs [] = Returned ∅
  ∧ (∀ tag, get0 ∅ tag = 0)
  ∧ chunk_list L N !! rank = Some []
  ∧ worker fs [] = Returned ∅.
Proof.
  intros Hrank HN.
  split; [reflexivity|]. split; [apply get0_empty|].
  split; [|reflexivity].
  rewrite chunk_lookup by lia. f_equal.
  assert (0 < N) as Hpos by lia.
  pose proof (Z.mod_pos_bound (Z.of_nat (length L)) N Hpos) as Hr.
  pose proof (Z.div_mod (Z.of_nat (length L)) N ltac:(lia)) as Hdm.
  assert (Z.of_nat (length L) / N = 0) as Hq by (apply Z.div_small; lia).
  rewrite Hq in *.
  assert (Z.of_nat (length L) mod N = Z.of_nat (length L)) as Hm by lia.
  rewrite Hm. rewrite (proj2 (Z.ltb_ge _ _)) by lia. done.
Qed.

Lemma C9_witness :
  Z.of_nat (length ["a.log"; "b.log"]) ≤ Z.of_nat 3 ∧
  Z.of_nat 3 < 4 ∧
  (analyse_files Demo.fs [] = Returned ∅
   ∧ (∀ tag, get0 ∅ tag = 0)
   ∧ chunk_list ["a.log"; "b.log"] 4 !! 3%nat = Some []
   ∧ worker Demo.fs [] = Returned ∅).
Proof.
  split; [simpl; lia|]. split; [lia|].
  apply (C9_empty_workload Demo.fs ["a.log"; "b.log"] 4 3); simpl; lia.
Defined.

(** C10.  Resolution looks at the suffix first: an input that ends in [.txt]
    is read as a manifest whether or not it contains the placeholder, giving
    the manifest's entries, or the empty list and a message when the read
    raises.  Pattern mode is entered only for an input that does not end in
    [.txt] and contains the placeholder.  Any other input yields the
    one-element list holding that input. *)
Theorem C10_resolution_modes (fs : string → FileRead) (args : Args) :
  let input_arg := input args in
  (PyStr.endswith input_arg ".txt" = true →
     (∀ file_list, read_manifest fs input_arg = Returned file_list →
        resolve_file_list fs args [] = ([], Returned (file_list, true)))
     ∧ (∀ e, read_manifest fs input_arg = Raised e →
          resolve_file_list fs args []
          = ([StderrManifestFailed input_arg e], Returned ([], false))))
  ∧ (PyStr.endswith input_arg ".txt" = false →
     PyStr.contains "{n}" input_arg = true →
       (0 < count args →
          resolve_file_list fs args []
          = ([], Returned (build_from_pattern input_arg (count args), false)))
       ∧ (count args ≤ 0 →
            resolve_file_list fs args []
            = ([StderrPatternNeedsCount], Returned ([], false))))
  ∧ (PyStr.endswith input_arg ".txt" = false →
     PyStr.contains "{n}" input_arg = false →
       resolve_file_list fs args [] = ([], Returned ([input_arg], false)))
  ∧ (resolve_file_list Demo.fs (mkArgs "batch{n}.txt" 3 true) []
     = ([], Returned (["a.log"], true))
     ∧ resolve_file_list Demo.fs (mkArgs "files{n}.txt" 3 true) []
       = ([StderrManifestFailed "files{n}.txt" OSError], Returned ([], false))
     ∧ resolve_file_list Demo.fs (mkArgs "node{n}.log" 2 true) []
       = ([], Returned (["node1.log"; "node2.log"], false))
     ∧ resolve_file_list Demo.fs (mkArgs "a.log" 2 true) []
       = ([], Returned (["a.log"], false))).
Proof.
  cbv zeta. unfold resolve_file_list.
  split; [|split; [|split]].
  - intros ->. split.
    + intros file_list Hm. unfold try_except, bind, call. by rewrite Hm.
    + intros e Hm. unfold try_except, bind, call. by rewrite Hm.
  - intros -> ->. split.
    + intros Hc. by rewrite (proj2 (Z.leb_gt (count args) 0)) by lia.
    + intros Hc. by rewrite (proj2 (Z.leb_le (count args) 0)) by lia.
  - by intros -> ->.
  - repeat split; vm_compute; reflexivity.
Qed.

(** * Further properties of the analyser *)

(** ** Support *)

Lemma occurrences_Permutation k ks1 ks2 :
  ks1 ≡ₚ ks2 → occurrences k ks1 = occurrences k ks2.
Proof. intros Hp. unfold occurrences. by rewrite Hp. Qed.

Lemma bump_Permutation ks1 ks2 (c : Counter) :
  ks1 ≡ₚ ks2 → bump ks1 c = bump ks2 c.
Proof.
  intros Hp. apply map_eq; intros k. rewrite !bump_lookup.
  rewrite (occurrences_Permutation k ks1 ks2 Hp).
  destruct (decide (k ∈ ks1)) as [H1|H1], (decide (k ∈ ks2)) as [H2|H2]; try done.
  - by rewrite Hp in H1.
  - by rewrite <- Hp in H2.
Qed.

Lemma tags_Permutation fs l1 l2 : l1 ≡ₚ l2 → tags fs l1 ≡ₚ tags fs l2.
Proof.
  induction 1 as [|f l1 l2 _ IH|f g l|l1 l2 l3 _ IH1 _ IH2].
  - done.
  - change (file_keys fs f ++ tags fs l1 ≡ₚ file_keys fs f ++ tags fs l2). by rewrite IH.
  - change (file_keys fs g ++ file_keys fs f ++ tags fs l
            ≡ₚ file_keys fs f ++ file_keys fs g ++ tags fs l).
    apply Permutation_app_swap_app.
  - by rewrite IH1.
Qed.

Lemma errors_tag_not_level : ERRORS_TAG ∉ LOG_LEVELS.
Proof. intros H. vm_compute in H. elem_cases H. Qed.

Lemma occurrences_omap_line_key k (ls : list string) :
  occurrences k (omap line_key ls)
  = Z.of_nat (length (filter (fun line => line_key line = Some k) ls)).
Proof.
  unfold occurrences. f_equal. induction ls as [|l ls IH]; [done|].
  rewrite (filter_cons (fun line => line_key line = Some k)).
  change (omap line_key (l :: ls))
    with (match line_key l with Some y => y :: omap line_key ls | None => omap line_key ls end).
  destruct (line_key l) as [k'|].
  - rewrite filter_cons. destruct (decide (k' = k)) as [->|Hne].
    + rewrite decide_True by done. cbn [length]. by rewrite IH.
    + by rewrite decide_False by congruence.
  - by rewrite decide_False by done.
Qed.

(** How often a file contributes a given tag. *)
Lemma occurrences_file_keys fs fname k :
  occurrences k (file_keys fs fname)
  = Z.of_nat (length (filter (fun line => line_key line = Some k) (lines (fs fname))))
    + (if decide (k = ERRORS_TAG)
       then match failure (fs fname) with Some _ => 1 | None => 0 end
       else 0).
Proof.
  unfold file_keys. rewrite occurrences_app, occurrences_omap_line_key. f_equal.
  destruct (failure (fs fname)).
  - rewrite occurrences_singleton. destruct (decide (k = ERRORS_TAG)) as [->|Hne].
    + by rewrite decide_True.
    + by rewrite decide_False by congruence.
  - by destruct (decide (k = ERRORS_TAG)).
Qed.

Lemma line_key_spec line lvl :
  lvl ∈ LOG_LEVELS →
  line_key line = Some lvl ↔ PyStr.strip <$> LogRegex.match_group2 line = Some lvl.
Proof.
  intros Hlvl. unfold line_key, py_in.
  destruct (LogRegex.match_group2 line) as [g2|]; simpl; [|done].
  case_bool_decide as Hin.
  - done.
  - split; [done|]. intros [= Heq]. by rewrite Heq in Hin.
Qed.

Lemma line_key_not_errors line : line_key line ≠ Some ERRORS_TAG.
Proof.
  intros H%line_key_level. by apply errors_tag_not_level.
Qed.

Lemma occurrences_tags_cons fs f l k :
  occurrences k (tags fs (f :: l))
  = occurrences k (file_keys fs f) + occurrences k (tags fs l).
Proof. change (tags fs (f :: l)) with (file_keys fs f ++ tags fs l). apply occurrences_app. Qed.

Lemma get0_bump_empty ks k : get0 (bump ks ∅) k = occurrences k ks.
Proof.
  unfold get0. rewrite bump_lookup, get0_empty, lookup_empty.
  case_decide; simpl; [lia|]. by rewrite occurrences_zero.
Qed.

(** ** Splitting and reordering the file list *)

(** [analyse_files] distributes over any split of its argument: the result for
    a concatenation is the merge of the results for the two parts.  So any way
    of cutting the work, not only [chunk_list], gives the sequential result. *)
Theorem X1_analyse_files_app (fs : string → FileRead) (l1 l2 : list string) :
  ∃ c1 c2 : Counter,
    analyse_files fs l1 = Returned c1
    ∧ analyse_files fs l2 = Returned c2
    ∧ analyse_files fs (l1 ++ l2) = Returned (dict_add c1 c2).
Proof.
  exists (bump (tags fs l1) ∅), (bump (tags fs l2) ∅).
  rewrite !analyse_files_tags, tags_app, dict_add_bump. done.
Qed.

(** The order of the files does not matter: analysing a reordered list gives
    the same mapping. *)
Theorem X2_analyse_files_order_irrelevant
    (fs : string → FileRead) (l1 l2 : list string) :
  Permutation l1 l2 → analyse_files fs l1 = analyse_files fs l2.
Proof.
  intros Hp. rewrite !analyse_files_tags. f_equal.
  by apply bump_Permutation, tags_Permutation.
Qed.

Lemma X2_witness :
  Permutation ["a.log"; "b.log"; "a.log"] ["b.log"; "a.log"; "a.log"]
  ∧ analyse_files Demo.fs ["a.log"; "b.log"; "a.log"]
    = analyse_files Demo.fs ["b.log"; "a.log"; "a.log"].
Proof.
  assert (Permutation ["a.log"; "b.log"; "a.log"] ["b.log"; "a.log"; "a.log"]) as Hp.
  { apply perm_swap. }
  split; [exact Hp|].
  exact (X2_analyse_files_order_irrelevant Demo.fs _ _ Hp).
Defined.

(** ** What the counts mean *)

(** The error tag counts the files whose read raised, each occurrence in the
    list counting once, and the key is absent when no read raised. *)
Theorem X3_error_tag_counts_failed_reads
    (fs : string → FileRead) (file_list : list string) :
  ∃ counts : Counter,
    analyse_files fs file_list = Returned counts
    ∧ get0 counts ERRORS_TAG
      = Z.of_nat (length (filter (fun f => is_Some (failure (fs f))) file_list))
    ∧ (counts !! ERRORS_TAG = None ↔ ∀ f, f ∈ file_list → failure (fs f) = None).
Proof.
  exists (bump (tags fs file_list) ∅). split; [apply analyse_files_tags|].
  assert (occurrences ERRORS_TAG (tags fs file_list)
          = Z.of_nat (length (filter (fun f => is_Some (failure (fs f))) file_list))) as Hocc.
  { induction file_list as [|f l IH]; [done|].
    rewrite occurrences_tags_cons, occurrences_file_keys, IH, filter_cons.
    rewrite decide_True by done.
    assert (filter (fun line => line_key line = Some ERRORS_TAG) (lines (fs f)) = []) as ->.
    { induction (lines (fs f)) as [|x xs IHx]; [done|].
      rewrite filter_cons, decide_False by apply line_key_not_errors. done. }
    destruct (failure (fs f)) as [e|].
    - rewrite decide_True by done. simpl length. lia.
    - rewrite decide_False by (by intros [? ?]). simpl. lia. }
  split; [by rewrite get0_bump_empty|].
  rewrite bump_lookup, lookup_empty. split.
  - case_decide as Hin; [done|]. intros _ f Hf.
    destruct (failure (fs f)) as [e|] eqn:Hfail; [|done].
    exfalso. apply Hin. clear Hin Hocc. induction Hf as [f l|f g l Hf IH].
    + change (tags fs (f :: l)) with (file_keys fs f ++ tags fs l).
      apply elem_of_app. left. unfold file_keys. rewrite Hfail.
      apply elem_of_app. right. by left.
    + change (tags fs (g :: l)) with (file_keys fs g ++ tags fs l).
      apply elem_of_app. right. by apply IH.
  - intros Hall. rewrite decide_False; [done|].
    intros Hin%occurrences_pos. rewrite Hocc in Hin.
    assert (filter (fun f => is_Some (failure (fs f))) file_list = []) as Hnil.
    { clear Hin Hocc. induction file_list as [|f l IH]; [done|].
      rewrite filter_cons, decide_False.
      - apply IH. intros g Hg. apply Hall. by right.
      - rewrite (Hall f) by left. by intros [? ?]. }
    rewrite Hnil in Hin. simpl in Hin. lia.
Qed.

(** The count of a recognised level is the number of lines, over all the
    listed files and including the lines a failing read yielded before it
    failed, that match the pattern with that level, once stripped, as their
    second group. *)
Theorem X4_level_count_is_number_of_matching_lines
    (fs : string → FileRead) (file_list : list string) (lvl : string) :
  lvl ∈ LOG_LEVELS →
  ∃ counts : Counter,
    analyse_files fs file_list = Returned counts
    ∧ get0 counts lvl
      = Z.of_nat (length (filter
                    (fun line => PyStr.strip <$> LogRegex.match_group2 line = Some lvl)
                    (concat ((fun f => lines (fs f)) <$> file_list)))).
Proof.
  intros Hlvl. exists (bump (tags fs file_list) ∅).
  split; [apply analyse_files_tags|]. rewrite get0_bump_empty.
  assert (lvl ≠ ERRORS_TAG) as Hne.
  { intros ->. by apply errors_tag_not_level. }
  induction file_list as [|f l IH]; [done|].
  rewrite occurrences_tags_cons, occurrences_file_keys, IH.
  rewrite decide_False by done. rewrite fmap_cons, concat_cons, filter_app, length_app.
  assert (filter (fun line => line_key line = Some lvl) (lines (fs f))
          = filter (fun line => PyStr.strip <$> LogRegex.match_group2 line = Some lvl)
              (lines (fs f))) as ->; [|lia].
  induction (lines (fs f)) as [|x xs IHx]; [done|].
  rewrite !filter_cons, IHx.
  destruct (decide (line_key x = Some lvl)) as [Hk|Hk].
  - rewrite decide_True; [done|]. by apply line_key_spec.
  - rewrite decide_False; [done|]. by rewrite <- line_key_spec.
Qed.

Lemma X4_witness :
  "ERROR" ∈ LOG_LEVELS ∧
  ∃ counts : Counter,
    analyse_files Demo.fs ["a.log"; "b.log"] = Returned counts
    ∧ get0 counts "ERROR"
      = Z.of_nat (length (filter
                    (fun line => PyStr.strip <$> LogRegex.match_group2 line = Some "ERROR")
                    (concat ((fun f => lines (Demo.fs f)) <$> ["a.log"; "b.log"])))).
Proof.
  assert ("ERROR" ∈ LOG_LEVELS) as Hin.
  { unfold LOG_LEVELS. apply elem_of_cons. right. apply elem_of_cons. by left. }
  split; [exact Hin|].
  exact (X4_level_count_is_number_of_matching_lines Demo.fs ["a.log"; "b.log"] "ERROR" Hin).
Defined.

(** A read that raises after yielding some lines keeps what those lines
    counted: the result for such a file is the result for the same lines read
    without failure, with the error tag set to 1. *)
Theorem X5_failed_read_keeps_counted_lines
    (fs fs' : string → FileRead) (fname : string) :
  lines (fs fname) = lines (fs' fname) →
  failure (fs fname) ≠ None →
  failure (fs' fname) = None →
  ∃ counted : Counter,
    analyse_files fs' [fname] = Returned counted
    ∧ counted !! ERRORS_TAG = None
    ∧ analyse_files fs [fname] = Returned (<[ERRORS_TAG := 1]> counted).
Proof.
  intros Hlines Hfail Hok.
  exists (bump (tags fs' [fname]) ∅). rewrite !analyse_files_tags.
  assert (tags fs' [fname] = omap line_key (lines (fs fname))) as Htags'.
  { unfold tags. simpl. unfold file_keys. by rewrite Hok, Hlines, !app_nil_r. }
  assert (tags fs [fname] = omap line_key (lines (fs fname)) ++ [ERRORS_TAG] ++ []) as Htags.
  { unfold tags. simpl. unfold file_keys. rewrite app_nil_r.
    revert Hfail. by destruct (failure (fs fname)). }
  assert (ERRORS_TAG ∉ omap line_key (lines (fs fname))) as Hclean.
  { intros (line & _ & Hk)%list_elem_of_omap. by apply line_key_not_errors in Hk. }
  split; [done|]. split.
  - rewrite Htags', bump_lookup, decide_False by done. apply lookup_empty.
  - rewrite Htags, Htags'. f_equal.
    rewrite bump_fresh_tag by (done || by intros ?%elem_of_nil).
    by rewrite app_nil_r.
Qed.

Lemma X5_witness :
  lines (DemoPartial.fs "c.log") = lines (DemoPartial.cured "c.log") ∧
  failure (DemoPartial.fs "c.log") ≠ None ∧
  failure (DemoPartial.cured "c.log") = None ∧
  ∃ counted : Counter,
    analyse_files DemoPartial.cured ["c.log"] = Returned counted
    ∧ counted !! ERRORS_TAG = None
    ∧ analyse_files DemoPartial.fs ["c.log"] = Returned (<[ERRORS_TAG := 1]> counted).
Proof.
  assert (failure (DemoPartial.fs "c.log") ≠ None) as Hfail by discriminate.
  split; [reflexivity|]. split; [exact Hfail|]. split; [reflexivity|].
  exact (X5_failed_read_keeps_counted_lines DemoPartial.fs DemoPartial.cured "c.log"
           eq_refl Hfail eq_refl).
Defined.

(** ** The line pattern *)

Lemma lstrip_space_prefix ws s :
  string_forall PyStr.isspace ws = true →
  PyStr.lstrip (ws ++ s)%string = PyStr.lstrip s.
Proof.
  induction ws as [|c ws IH]; [done|]. simpl.
  intros [Hc Hws]%andb_prop. rewrite Hc. by apply IH.
Qed.

Lemma lazy_group_found inner rest :
  string_forall group_char inner = true →
  LogRegex.lazy_group (inner ++ String "]" rest)%string = Some inner.
Proof.
  induction inner as [|c inner IH]; [done|]. simpl.
  intros [Hc Hin]%andb_prop. unfold group_char in Hc.
  apply andb_prop in Hc as [H1%negb_true_iff H2%negb_true_iff].
  rewrite H1, H2, IH by done. done.
Qed.

Lemma scan_group1_found ts s g2 :
  string_forall group_char ts = true →
  LogRegex.after_group1 s = Some g2 →
  LogRegex.scan_group1 (ts ++ String "]" s)%string = Some g2.
Proof.
  intros Hts Hs. induction ts as [|c ts IH]; simpl.
  - by rewrite Hs.
  - simpl in Hts. apply andb_prop in Hts as [Hc Hts]. unfold group_char in Hc.
    apply andb_prop in Hc as [H1%negb_true_iff H2%negb_true_iff].
    rewrite H1, H2. by apply IH.
Qed.

(** A line made of a bracketed field without closing bracket or newline, any
    run of whitespace (possibly none), and a second such bracketed field
    matches the pattern, whatever follows, and its second group is the content
    of the second field. *)
Theorem X6_pattern_matches_two_bracketed_fields (ts ws inner rest : string) :
  string_forall group_char ts = true →
  string_forall PyStr.isspace ws = true →
  string_forall group_char inner = true →
  LogRegex.match_group2
    ("[" ++ ts ++ "]" ++ ws ++ "[" ++ inner ++ "]" ++ rest)%string
  = Some inner.
Proof.
  intros Hts Hws Hinner. simpl.
  apply scan_group1_found; [done|].
  unfold LogRegex.after_group1. rewrite lstrip_space_prefix by done.
  simpl. by apply lazy_group_found.
Qed.

Lemma X6_witness :
  string_forall group_char "2024-01-01T10:00:00" = true ∧
  string_forall PyStr.isspace "  " = true ∧
  string_forall group_char " WARN " = true ∧
  LogRegex.match_group2
    ("[" ++ "2024-01-01T10:00:00" ++ "]" ++ "  " ++ "[" ++ " WARN " ++ "]" ++ " x]y")%string
  = Some " WARN ".
Proof.
  split; [reflexivity|]. split; [reflexivity|]. split; [reflexivity|].
  exact (X6_pattern_matches_two_bracketed_fields
           "2024-01-01T10:00:00" "  " " WARN " " x]y" eq_refl eq_refl eq_refl).
Defined.

(** ** Stripping and the manifest *)

Lemma lstrip_starts_clean s : starts_clean (PyStr.lstrip s).
Proof.
  induction s as [|c s IH]; [done|]. simpl.
  destruct (PyStr.isspace c) eqn:Hc; [done|]. exact Hc.
Qed.

Lemma lstrip_clean s : starts_clean s → PyStr.lstrip s = s.
Proof. destruct s as [|c s]; [done|]. simpl. by intros ->. Qed.

Lemma rstrip_starts_clean s : starts_clean s → starts_clean (PyStr.rstrip s).
Proof.
  destruct s as [|c s]; [done|]. simpl. intros Hc.
  destruct (PyStr.rstrip s); [by rewrite Hc | done].
Qed.

Lemma rstrip_idempotent s : PyStr.rstrip (PyStr.rstrip s) = PyStr.rstrip s.
Proof.
  induction s as [|c s IH]; [done|]. simpl.
  destruct (PyStr.rstrip s) as [|d r] eqn:Hr.
  - destruct (PyStr.isspace c) eqn:Hc; [done|]. simpl. by rewrite Hc.
  - change (PyStr.rstrip (String c (String d r)))
      with (match PyStr.rstrip (String d r) with
            | EmptyString => if PyStr.isspace c then EmptyString else String c EmptyString
            | r' => String c r'
            end).
    by rewrite IH.
Qed.

(** Stripping twice is stripping once. *)
Lemma strip_idempotent s : PyStr.strip (PyStr.strip s) = PyStr.strip s.
Proof.
  unfold PyStr.strip.
  rewrite (lstrip_clean (PyStr.rstrip (PyStr.lstrip s)))
    by apply rstrip_starts_clean, lstrip_starts_clean.
  apply rstrip_idempotent.
Qed.

Lemma manifest_entries_filter ls :
  manifest_entries ls = filter (fun s => s ≠ "") (PyStr.strip <$> ls).
Proof.
  unfold manifest_entries. induction ls as [|l ls IH]; [done|].
  rewrite fmap_cons, filter_cons. simpl omap.
  destruct (String.eqb_spec (PyStr.strip l) "") as [Heq|Hne].
  - rewrite decide_False by (by intros ?). apply IH.
  - rewrite decide_True by done. by rewrite <- IH.
Qed.

(** [read_manifest] returns the stripped lines of the manifest, in file order,
    without the ones that are blank; so no entry is empty or carries
    surrounding whitespace, line terminator included.  When the read raises,
    the exception propagates and no partial list is returned. *)
Theorem X7_read_manifest_entries (fs : string → FileRead) (path : string) :
  read_manifest fs path =
    match failure (fs path) with
    | Some e => Raised e
    | None => Returned (filter (fun s => s ≠ "") (PyStr.strip <$> lines (fs path)))
    end
  ∧ ∀ files, read_manifest fs path = Returned files →
      Forall (fun entry => entry ≠ "" ∧ PyStr.strip entry = entry) files.
Proof.
  rewrite read_manifest_outcome, manifest_entries_filter. split; [done|].
  intros files Hfiles. destruct (failure (fs path)); [done|].
  injection Hfiles as <-. apply Forall_forall. intros entry Hin.
  apply list_elem_of_filter in Hin as [Hne Hin]. split; [done|].
  apply list_elem_of_fmap in Hin as (line & -> & _). apply strip_idempotent.
Qed.

(** ** Pattern mode *)

Lemma append_length a b : String.length (a ++ b)%string = (String.length a + String.length b)%nat.
Proof. induction a as [|c a IH]; [done|]. simpl. by rewrite IH. Qed.

Lemma append_inj_length a b x y :
  String.length a = String.length b → (a ++ x)%string = (b ++ y)%string → a = b.
Proof.
  revert b. induction a as [|c a IH]; intros [|d b] Hlen Heq; try done.
  simpl in *. injection Heq as -> Heq. f_equal. apply IH; [lia | done].
Qed.

Lemma replace_from_length skip old new s :
  String.length (PyStr.replace_from skip old new s)
  = (kept_count skip old s + replaced_count skip old s * String.length new)%nat.
Proof.
  revert skip. induction s as [|c s IH]; intros skip; [done|].
  destruct skip as [|k].
  - cbn [PyStr.replace_from kept_count replaced_count].
    destruct (PyStr.startswith (String c s) old).
    + rewrite append_length, IH. lia.
    + cbn [String.length]. rewrite IH. lia.
  - cbn [PyStr.replace_from kept_count replaced_count]. apply IH.
Qed.

Lemma startswith_nil old : old ≠ EmptyString → PyStr.startswith EmptyString old = false.
Proof. by destruct old. Qed.

Lemma contains_replaced_count old s :
  old ≠ EmptyString → PyStr.contains old s = true → (1 ≤ replaced_count 0 old s)%nat.
Proof.
  intros Hold. induction s as [|c s IH].
  - cbn [PyStr.contains]. rewrite startswith_nil by done. discriminate.
  - cbn [PyStr.contains replaced_count].
    destruct (PyStr.startswith (String c s) old); simpl; [lia|]. exact IH.
Qed.

(** Up to the first occurrence the output does not depend on the replacement;
    the replacement comes next. *)
Lemma replace_first_occurrence old s :
  (1 ≤ replaced_count 0 old s)%nat →
  ∃ pre, ∀ new, ∃ tail,
    PyStr.replace_from 0 old new s = (pre ++ new ++ tail)%string.
Proof.
  induction s as [|c s IH]; [simpl; lia|].
  cbn [replaced_count PyStr.replace_from].
  destruct (PyStr.startswith (String c s) old).
  - intros _. exists EmptyString. intros new. by eexists.
  - intros Hocc. destruct (IH Hocc) as [pre Hpre].
    exists (String c pre). intros new. destruct (Hpre new) as [tail ->].
    by exists tail.
Qed.

Lemma replace_injective old s a b :
  old ≠ EmptyString → PyStr.contains old s = true →
  PyStr.replace s old a = PyStr.replace s old b → a = b.
Proof.
  intros Hold Hin Heq. unfold PyStr.replace in Heq.
  pose proof (contains_replaced_count old s Hold Hin) as Hocc.
  assert (String.length a = String.length b) as Hlen.
  { apply (f_equal String.length) in Heq. rewrite !replace_from_length in Heq. nia. }
  destruct (replace_first_occurrence old s Hocc) as [pre Hpre].
  destruct (Hpre a) as [ta Ha], (Hpre b) as [tb Hb].
  rewrite Ha, Hb in Heq.
  assert ((a ++ ta)%string = (b ++ tb)%string) as Heq'.
  { clear -Heq. induction pre as [|c pre IH]; [done|].
    simpl in Heq. injection Heq as Heq. by apply IH. }
  by apply (append_inj_length a b ta tb).
Qed.

Lemma replace_absent old new s :
  PyStr.contains old s = false → PyStr.replace s old new = s.
Proof.
  unfold PyStr.replace. induction s as [|c s IH]; [done|].
  cbn [PyStr.contains PyStr.replace_from].
  intros [Hs Hc]%orb_false_elim. rewrite Hs. f_equal. by apply IH.
Qed.

(** [build_from_pattern] yields [count] names, none at all for a non-positive
    [count]; name number [i], counting from 0, is the pattern with every
    placeholder replaced by the decimal form of [i + 1].  When the pattern
    contains the placeholder the names are pairwise distinct, so no file is
    listed twice; when it does not, every name is the pattern itself. *)
Theorem X8_build_from_pattern_names (pattern : string) (count : Z) :
  length (build_from_pattern pattern count) = Z.to_nat count
  ∧ (∀ i : nat, Z.of_nat i < count →
       build_from_pattern pattern count !! i
       = Some (PyStr.replace pattern "{n}" (PyStr.str (Z.of_nat i + 1))))
  ∧ (PyStr.contains "{n}" pattern = true → NoDup (build_from_pattern pattern count))
  ∧ (PyStr.contains "{n}" pattern = false →
       ∀ name, name ∈ build_from_pattern pattern count → name = pattern).
Proof.
  unfold build_from_pattern. split; [|split; [|split]].
  - by rewrite length_fmap, length_seqZ.
  - intros i Hi. rewrite list_lookup_fmap, lookup_seqZ_lt by done. simpl.
    do 3 f_equal. lia.
  - intros Hin. apply NoDup_fmap_2_strong; [|apply NoDup_seqZ].
    intros i j _ _ Heq. apply replace_injective in Heq; [|done|done].
    by apply (inj pretty) in Heq.
  - intros Hout name (i & -> & _)%list_elem_of_fmap. by apply replace_absent.
Qed.

(** * Further properties of the partitioner and of the merge *)

(** Chunk sizes never increase with the rank: the coordinator, rank 0, always
    holds a chunk of maximal size. *)
Theorem X9_chunk_sizes_non_increasing {A} (L : list A) (N : Z) (i j : nat) ci cj :
  1 ≤ N →
  (i ≤ j)%nat →
  chunk_list L N !! i = Some ci →
  chunk_list L N !! j = Some cj →
  (length cj ≤ length ci)%nat.
Proof.
  intros HN Hij Hi Hj.
  apply chunk_lookup_length in Hi; [|lia]. apply chunk_lookup_length in Hj; [|lia].
  destruct (Z.ltb_spec (Z.of_nat i) (Z.of_nat (length L) mod N)),
           (Z.ltb_spec (Z.of_nat j) (Z.of_nat (length L) mod N)); lia.
Qed.

Lemma X9_witness :
  1 ≤ 3 ∧ (0 ≤ 2)%nat ∧
  chunk_list ["a"; "b"; "c"; "d"; "e"; "f"; "g"] 3 !! 0%nat = Some ["a"; "b"; "c"] ∧
  chunk_list ["a"; "b"; "c"; "d"; "e"; "f"; "g"] 3 !! 2%nat = Some ["f"; "g"] ∧
  (length ["f"; "g"] ≤ length ["a"; "b"; "c"])%nat.
Proof.
  assert (chunk_list ["a"; "b"; "c"; "d"; "e"; "f"; "g"] 3 !! 0%nat = Some ["a"; "b"; "c"])
    as H0 by (vm_compute; reflexivity).
  assert (chunk_list ["a"; "b"; "c"; "d"; "e"; "f"; "g"] 3 !! 2%nat = Some ["f"; "g"])
    as H2 by (vm_compute; reflexivity).
  split; [lia|]. split; [lia|]. split; [exact H0|]. split; [exact H2|].
  apply (X9_chunk_sizes_non_increasing
           ["a"; "b"; "c"; "d"; "e"; "f"; "g"] 3 0 2 _ _ ltac:(lia) ltac:(lia) H0 H2).
Defined.

Lemma concat_lookup_elem {A} (ls : list (list A)) (i : nat) l x :
  ls !! i = Some l → x ∈ l → x ∈ concat ls.
Proof.
  revert i. induction ls as [|h ls IH]; intros [|i] Hl Hx; try done; simpl in *.
  - injection Hl as ->. apply elem_of_app. by left.
  - apply elem_of_app. right. by eapply IH.
Qed.

Lemma elem_concat_lookup {A} (ls : list (list A)) x :
  x ∈ concat ls → ∃ (i : nat) l, ls !! i = Some l ∧ x ∈ l.
Proof.
  induction ls as [|h ls IH]; simpl; [by intros ?%elem_of_nil|].
  intros [Hx|Hx]%elem_of_app.
  - by exists 0%nat, h.
  - destruct (IH Hx) as (i & l & Hl & Hin). by exists (S i), l.
Qed.

Lemma NoDup_concat_disjoint {A} (ls : list (list A)) (i j : nat) a b x :
  NoDup (concat ls) → (i < j)%nat →
  ls !! i = Some a → ls !! j = Some b → x ∈ a → x ∉ b.
Proof.
  revert i j. induction ls as [|h ls IH]; intros i j Hnd Hij Ha Hb Hxa Hxb; [done|].
  simpl in Hnd. apply NoDup_app in Hnd as (_ & Hdis & Hnd).
  destruct j as [|j]; [lia|]. destruct i as [|i]; simpl in *.
  - injection Ha as ->. apply (Hdis x Hxa). by eapply concat_lookup_elem.
  - apply (IH i j); (done || lia).
Qed.

(** When the file list has no repeated identifier, every file is assigned to
    exactly one rank: it is in some chunk, and two different chunks share no
    file. *)
Theorem X10_each_file_in_exactly_one_chunk {A} (L : list A) (N : Z) :
  1 ≤ N →
  NoDup L →
  (∀ x, x ∈ L ↔ ∃ (i : nat) c, chunk_list L N !! i = Some c ∧ x ∈ c)
  ∧ (∀ (i j : nat) ci cj x,
       i ≠ j → chunk_list L N !! i = Some ci → chunk_list L N !! j = Some cj →
       x ∈ ci → x ∉ cj).
Proof.
  intros HN Hnd.
  pose proof (chunk_list_concat L N ltac:(lia)) as Hcat.
  split.
  - intros x. rewrite <- Hcat at 1. split.
    + apply elem_concat_lookup.
    + intros (i & c & Hc & Hx). by eapply concat_lookup_elem.
  - rewrite <- Hcat in Hnd. intros i j ci cj x Hij Hi Hj Hxi Hxj.
    destruct (Nat.lt_total i j) as [Hlt|[Heq|Hgt]]; [|done|].
    + by apply (NoDup_concat_disjoint _ i j ci cj x Hnd Hlt Hi Hj).
    + by apply (NoDup_concat_disjoint _ j i cj ci x Hnd Hgt Hj Hi).
Qed.

Lemma X10_witness :
  1 ≤ 2 ∧ NoDup ["a.log"; "b.log"; "c.log"] ∧
  (∀ x, x ∈ ["a.log"; "b.log"; "c.log"]
        ↔ ∃ (i : nat) c, chunk_list ["a.log"; "b.log"; "c.log"] 2 !! i = Some c ∧ x ∈ c)
  ∧ (∀ (i j : nat) ci cj x,
       i ≠ j →
       chunk_list ["a.log"; "b.log"; "c.log"] 2 !! i = Some ci →
       chunk_list ["a.log"; "b.log"; "c.log"] 2 !! j = Some cj →
       x ∈ ci → x ∉ cj).
Proof.
  assert (NoDup ["a.log"; "b.log"; "c.log"]) as Hnd.
  { repeat (apply NoDup_cons; split; [intros H; elem_cases H|]). apply NoDup_nil_2. }
  split; [lia|]. split; [exact Hnd|].
  exact (X10_each_file_in_exactly_one_chunk ["a.log"; "b.log"; "c.log"] 2 ltac:(lia) Hnd).
Defined.

(** With at least as many participants as files, rank [i] is assigned exactly
    the file at position [i] of the list. *)
Theorem X11_one_file_per_rank {A} (L : list A) (N : Z) (i : nat) (x : A) :
  Z.of_nat (length L) ≤ N →
  L !! i = Some x →
  chunk_list L N !! i = Some [x].
Proof.
  intros HN Hx. pose proof (lookup_lt_Some _ _ _ Hx) as Hi.
  assert (0 < N) as Hpos by lia.
  rewrite chunk_lookup by lia. f_equal. unfold boundary.
  destruct (Z.eq_dec (Z.of_nat (length L)) N) as [Heq|Hne].
  - rewrite Heq, Z_div_same_full, Z_mod_same_full by lia.
    rewrite (proj2 (Z.ltb_ge _ 0)) by lia.
    replace (Z.to_nat (1 + 0)) with 1%nat by lia.
    replace (Z.to_nat (Z.of_nat i * 1 + Z.of_nat i `min` 0)) with i by lia.
    by rewrite (drop_S _ _ _ Hx).
  - rewrite Z.div_small, Z.mod_small by lia.
    rewrite (proj2 (Z.ltb_lt _ _)) by lia.
    replace (Z.to_nat (0 + 1)) with 1%nat by lia.
    replace (Z.to_nat (Z.of_nat i * 0 + Z.of_nat i `min` Z.of_nat (length L))) with i by lia.
    by rewrite (drop_S _ _ _ Hx).
Qed.

Lemma X11_witness :
  Z.of_nat (length ["a.log"; "b.log"]) ≤ 4 ∧
  ["a.log"; "b.log"] !! 1%nat = Some "b.log" ∧
  chunk_list ["a.log"; "b.log"] 4 !! 1%nat = Some ["b.log"].
Proof.
  split; [simpl; lia|]. split; [reflexivity|].
  apply (X11_one_file_per_rank ["a.log"; "b.log"] 4 1 "b.log"); [simpl; lia | reflexivity].
Defined.

(** [dict_add a b] has exactly the keys of [a] and the keys of [b]; each count
    is the sum of the two counts, a missing key counting for zero; and the
    empty mapping is neutral on both sides, so the result of an idle worker
    leaves the totals unchanged. *)
Theorem X12_dict_add_keys_and_counts (a b : Counter) :
  dom (dict_add a b) = dom a ∪ dom b
  ∧ (∀ k, get0 (dict_add a b) k = get0 a k + get0 b k)
  ∧ dict_add a ∅ = a
  ∧ dict_add ∅ b = b.
Proof.
  split; [|split; [apply get0_dict_add | split; [apply dict_add_empty_r | apply dict_add_empty_l]]].
  apply set_eq. intros k. rewrite elem_of_union, !elem_of_dom, dict_add_lookup.
  destruct (b !! k) as [v|]; split.
  - intros _. right. by eexists.
  - intros _. by eexists.
  - intros H. by left.
  - intros [H|[? H]]; [done | discriminate].
Qed.

(** * Further properties of the coordinator *)

Lemma resolve_events_no_message fs args :
  forallb (fun e => negb (is_message e)) (resolve_events fs args) = true.
Proof.
  pose proof (resolve_events_stderr fs args) as Hall.
  induction (resolve_events fs args) as [|e l IH]; [done|].
  simpl in *. apply andb_prop in Hall as [He Hl]. rewrite IH by done.
  by destruct e.
Qed.

Lemma report_events_no_message total :
  forallb (fun e => negb (is_message e)) (report_events total) = true.
Proof.
  unfold report_events. rewrite !forallb_app, forallb_fmap_const by done.
  by destruct (0 <? get0 total ERRORS_TAG).
Qed.

(** The message protocol of a run with [size] processes.  The coordinator
    sends one assignment to each rank from 1 to [size - 1], in rank order, rank
    [r] getting chunk [r] of the resolved list; then it enters the barrier,
    once; then it receives one result from each of these ranks, again in rank
    order.  Nothing else is exchanged; with a single process nothing is sent
    or received. *)
Theorem X13_message_protocol
    (fs : string → FileRead) (clock : Clock) (args : Args) (size : Z)
    (L : list string) (mode : bool) (shown : World) :
  1 ≤ size →
  resolve_file_list fs args [] = (shown, Returned (L, mode)) →
  filter (fun e => is_message e = true) (fst (main_rank0 fs clock args size []))
  = ((fun r => Send (default [] (chunk_list L size !! Z.to_nat r)) r 11) <$> range 1 size)
    ++ [Barrier]
    ++ ((fun r => Recv r 22) <$> range 1 size).
Proof.
  intros Hsize Hres.
  assert (fst (resolved fs args) = L) as HL.
  { unfold resolved. by rewrite Hres. }
  rewrite filter_run_trace by done. rewrite HL.
  rewrite !filter_app.
  rewrite (filter_drop_all _ [PrintFound _ _]) by done.
  rewrite (filter_drop_all _ (resolve_events fs args)) by apply resolve_events_no_message.
  rewrite (filter_drop_all _ (report_events _)) by apply report_events_no_message.
  rewrite (filter_keep_all _ (send_events _ _))
    by (unfold send_events; by apply forallb_fmap_const).
  rewrite (filter_keep_all _ (recv_events _))
    by (unfold recv_events; by apply forallb_fmap_const).
  rewrite app_nil_r. simpl. reflexivity.
Qed.

Lemma X13_witness :
  1 ≤ 3 ∧
  resolve_file_list Demo.fs (mkArgs "files.txt" 0 false) []
  = ([], Returned (["a.log"; "b.log"], true)) ∧
  filter (fun e => is_message e = true)
    (fst (main_rank0 Demo.fs Demo.coarse_clock (mkArgs "files.txt" 0 false) 3 []))
  = ((fun r => Send (default [] (chunk_list ["a.log"; "b.log"] 3 !! Z.to_nat r)) r 11)
       <$> range 1 3)
    ++ [Barrier]
    ++ ((fun r => Recv r 22) <$> range 1 3).
Proof.
  assert (resolve_file_list Demo.fs (mkArgs "files.txt" 0 false) []
          = ([], Returned (["a.log"; "b.log"], true))) as Hres
    by (vm_compute; reflexivity).
  split; [lia|]. split; [exact Hres|].
  exact (X13_message_protocol Demo.fs Demo.coarse_clock (mkArgs "files.txt" 0 false) 3
           ["a.log"; "b.log"] true [] ltac:(lia) Hres).
Defined.

(** A configuration error is visible on the standard error stream only: the
    report that follows reads like a run over no file, with a zero line for
    each level and no line for open errors. *)
Theorem X14_configuration_error_report
    (fs : string → FileRead) (clock : Clock) (args : Args) (size : Z) :
  1 ≤ size →
  configuration_error fs args →
  let trace := fst (main_rank0 fs clock args size []) in
  PrintFound 0 false ∈ trace
  ∧ (∀ lvl, lvl ∈ LOG_LEVELS → PrintLevel lvl 0 ∈ trace)
  ∧ (∀ n, PrintOpenErrors n ∉ trace).
Proof.
  intros Hsize Herr.
  destruct (configuration_error_resolution fs args Herr) as (report & _ & Hev & Hres).
  cbv zeta. rewrite main_rank0_trace by done.
  split; [|split].
  - rewrite Hres. cbn [fst snd length]. rewrite !elem_of_app.
    left. right. left. by apply list_elem_of_singleton.
  - intros lvl Hlvl. rewrite Hres. cbn [fst].
    rewrite !elem_of_app. right. left.
    pose proof (levels_in_report ∅ lvl Hlvl) as Hin.
    by rewrite get0_empty in Hin.
  - intros n Hn. apply elem_of_app in Hn as [Hn|Hn].
    + by apply (open_errors_only_in_report fs args size (no_seq args) n).
    + apply elem_of_app in Hn as [Hn|Hn].
      * apply open_errors_in_report in Hn as [-> Hpos].
        rewrite Hres in Hpos. change (bump (tags fs []) ∅) with (∅ : Counter) in Hpos.
        rewrite get0_empty in Hpos. lia.
      * by apply timing_events_no_total in Hn.
Qed.

Lemma X14_witness :
  1 ≤ 3 ∧
  configuration_error Demo.fs (mkArgs "missing.txt" 0 true) ∧
  let trace := fst (main_rank0 Demo.fs Demo.clock (mkArgs "missing.txt" 0 true) 3 []) in
  PrintFound 0 false ∈ trace
  ∧ (∀ lvl, lvl ∈ LOG_LEVELS → PrintLevel lvl 0 ∈ trace)
  ∧ (∀ n, PrintOpenErrors n ∉ trace).
Proof.
  assert (configuration_error Demo.fs (mkArgs "missing.txt" 0 true)) as Herr.
  { left. split; [reflexivity|]. exists OSError. reflexivity. }
  split; [lia|]. split; [exact Herr|].
  exact (X14_configuration_error_report Demo.fs Demo.clock (mkArgs "missing.txt" 0 true) 3
           ltac:(lia) Herr).
Defined.

(** What the timings block does for the durations a clock gives. *)
Lemma report_timings_run clock no_seq size :
  1 ≤ size →
  report_timings (seq_time_of clock no_seq) (parallel_time_of clock) size [] =
    if negb no_seq
       && positive (baseline_stop clock - baseline_start clock)
       && Qeq_bool (parallel_stop clock - parallel_start clock) 0
    then ([PrintParallelTime], Raised ZeroDivisionError)
    else if negb no_seq && positive (baseline_stop clock - baseline_start clock)
    then ([PrintParallelTime; PrintSequentialTime; PrintSpeedup; PrintEfficiency;
           PrintRule], Returned tt)
    else ([PrintParallelTime; PrintSequentialNA; PrintRule], Returned tt).
Proof.
  intros Hsize.
  assert (Qeq_bool (inject_Z size) 0 = false) as Hdiv.
  { destruct (Qeq_bool (inject_Z size) 0) eqn:E; [|done].
    apply Qeq_bool_iff in E. unfold Qeq in E. simpl in E. lia. }
  unfold report_timings, seq_time_of, parallel_time_of, py_truediv,
    bind, emit, modify, call, ret.
  destruct no_seq; [done|]. cbn [negb andb].
  destruct (positive _); [|done]. cbn [andb].
  destruct (Qeq_bool (parallel_stop clock - parallel_start clock) 0); [done|].
  by rewrite Hdiv.
Qed.

(** How a run of the coordinator ends.  The division of line 144 raises
    [ZeroDivisionError] exactly when the baseline was run, its measured
    duration is positive and the two readings around the timed section are
    equal; the run then stops after the line that prints the parallel time,
    the totals having been printed.  In every other case the run returns the
    counts of the timed section, and its last line is the closing rule. *)
Theorem X20_run_returns_unless_parallel_time_is_zero
    (fs : string → FileRead) (clock : Clock) (args : Args) (size : Z) :
  1 ≤ size →
  let raises :=
    negb (no_seq args)
    && positive (baseline_stop clock - baseline_start clock)
    && Qeq_bool (parallel_stop clock - parallel_start clock) 0 in
  snd (main_rank0 fs clock args size [])
  = (if raises then Raised ZeroDivisionError
     else counts_of (snd (coordinate fs clock args size [])))
  ∧ last (fst (main_rank0 fs clock args size []))
    = Some (if raises then PrintParallelTime else PrintRule).
Proof.
  intros Hsize. cbv zeta.
  rewrite main_rank0_run, coordinate_run by done. cbv zeta. cbn [fst snd counts_of].
  unfold timing_outcome, timing_events.
  rewrite (report_timings_run clock (no_seq args) size Hsize).
  rewrite !app_assoc, last_app.
  destruct (negb (no_seq args) && positive _ && Qeq_bool _ 0); [done|].
  by destruct (negb (no_seq args) && positive _).
Qed.

Lemma X20_witness :
  1 ≤ 2 ∧
  let raises :=
    negb (no_seq (mkArgs "files.txt" 0 false))
    && positive (baseline_stop Demo.coarse_clock - baseline_start Demo.coarse_clock)
    && Qeq_bool (parallel_stop Demo.coarse_clock - parallel_start Demo.coarse_clock) 0 in
  snd (main_rank0 Demo.fs Demo.coarse_clock (mkArgs "files.txt" 0 false) 2 [])
  = (if raises then Raised ZeroDivisionError
     else counts_of (snd (coordinate Demo.fs Demo.coarse_clock (mkArgs "files.txt" 0 false) 2 [])))
  ∧ last (fst (main_rank0 Demo.fs Demo.coarse_clock (mkArgs "files.txt" 0 false) 2 []))
    = Some (if raises then PrintParallelTime else PrintRule).
Proof.
  split; [lia|].
  apply (X20_run_returns_unless_parallel_time_is_zero
           Demo.fs Demo.coarse_clock (mkArgs "files.txt" 0 false) 2). lia.
Defined.

(** * The sequential reference and the first parallel version *)

Lemma for_each_app {S B} (l1 l2 : list B) (body : B → Py S unit) s :
  for_each (l1 ++ l2) body s = (for_each l1 body >> for_each l2 body) s.
Proof.
  revert s. induction l1 as [|x l1 IH]; intros s; simpl.
  - done.
  - unfold bind in *. destruct (body x s) as [s' [[]| |]]; [apply IH | done | done].
Qed.

Lemma bump_positive ks k v : bump ks ∅ !! k = Some v → 0 < v.
Proof.
  rewrite bump_lookup, get0_empty, lookup_empty.
  case_decide as Hin; [|done]. intros [= <-].
  pose proof (occurrences_pos k ks Hin). lia.
Qed.

Lemma keep_positive_bump ks : Base.keep_positive (bump ks ∅) = bump ks ∅.
Proof.
  unfold Base.keep_positive. apply map_filter_id.
  intros k v Hk. simpl. by eapply bump_positive.
Qed.

Lemma counter_iadd_bump ks1 ks2 :
  Base.counter_iadd (bump ks1 ∅) (bump ks2 ∅) = bump (ks1 ++ ks2) ∅.
Proof. unfold Base.counter_iadd. by rewrite dict_add_bump, keep_positive_bump. Qed.

Section BaseFacts.
Variable fs : string → FileRead.

Lemma analyze_log_outcome file_path :
  Base.analyze_log fs file_path =
    match failure (fs file_path) with
    | Some e => Raised e
    | None => Returned (bump (omap Base.line_level (lines (fs file_path))) ∅)
    end.
Proof.
  unfold Base.analyze_log, result_of, with_open_lines, bind.
  rewrite (for_each_returns _
             (fun c line => bump (option_list (Base.line_level line)) c)).
  - assert (∀ ls c,
              foldl (fun c line => bump (option_list (Base.line_level line)) c) c ls
              = bump (omap Base.line_level ls) c) as ->.
    { induction ls as [|l ls IH]; intros c; [done|].
      simpl. rewrite IH. by destruct (Base.line_level l). }
    by destruct (failure (fs file_path)).
  - intros line c. by destruct (Base.line_level line).
Qed.

Lemma base_tags_cons f l :
  base_tags fs (f :: l) = omap Base.line_level (lines (fs f)) ++ base_tags fs l.
Proof. done. Qed.

Lemma base_tags_app l1 l2 : base_tags fs (l1 ++ l2) = base_tags fs l1 ++ base_tags fs l2.
Proof. unfold base_tags. by rewrite fmap_app, concat_app. Qed.

(** The loop over readable files, from any running total. *)
Lemma base_loop_readable log_files ts :
  (∀ f, f ∈ log_files → readable (fs f)) →
  for_each log_files
    (fun file =>
       let* counts := call (Base.analyze_log fs file) in
       modify (fun total => Base.counter_iadd total counts)) (bump ts ∅)
  = (bump (ts ++ base_tags fs log_files) ∅, Returned tt).
Proof.
  revert ts. induction log_files as [|f l IH]; intros ts Hall.
  - simpl. unfold ret. by rewrite app_nil_r.
  - simpl for_each. unfold bind at 1. unfold bind at 1, call, modify.
    rewrite analyze_log_outcome, (Hall f) by left.
    rewrite counter_iadd_bump, IH by (intros g Hg; apply Hall; by right).
    by rewrite base_tags_cons, app_assoc.
Qed.

Lemma analyse_all_readable log_files :
  (∀ f, f ∈ log_files → readable (fs f)) →
  Base.analyse_all fs log_files = Returned (bump (base_tags fs log_files) ∅).
Proof.
  intros Hall. unfold Base.analyse_all, result_of, bind.
  change (∅ : Counter) with (bump [] ∅) at 1.
  by rewrite base_loop_readable.
Qed.

End BaseFacts.

Lemma elem_of_py_slice {A} (l : list A) a b x : x ∈ py_slice l a b → x ∈ l.
Proof.
  unfold py_slice. intros Hx. apply subseteq_take in Hx. by apply subseteq_drop in Hx.
Qed.

(** The shares of the first workers, joined, are a prefix of the list. *)
Lemma files_for_worker_prefix (log_files : list string) (size : Z) (k : nat) :
  2 ≤ size →
  concat (Base.files_for_worker log_files size <$> seqZ 1 (Z.of_nat k))
  = take (Z.to_nat (Z.min (Z.of_nat k * ((Z.of_nat (length log_files) + size - 2) / (size - 1)))
                      (Z.of_nat (length log_files)))) log_files.
Proof.
  intros Hsize.
  set (n := Z.of_nat (length log_files)).
  set (cs := (n + size - 2) / (size - 1)).
  assert (0 ≤ cs) as Hcs by (subst cs; apply Z.div_pos; lia).
  induction k as [|k IH].
  { replace (Z.to_nat (Z.min (Z.of_nat 0 * cs) n)) with 0%nat by lia. done. }
  rewrite seqZ_S, fmap_app, concat_app, IH. simpl.
  rewrite app_nil_r. unfold Base.files_for_worker, py_slice, slice_bound.
  fold n. fold cs.
  replace (1 + Z.of_nat k - 1) with (Z.of_nat k) by lia.
  rewrite !(proj2 (Z.ltb_ge _ 0)) by nia.
  rewrite take_take_drop. f_equal. nia.
Qed.

Lemma stage1_shares_concat (log_files : list string) (size : Z) :
  2 ≤ size →
  concat (Base.files_for_worker log_files size <$> range 1 size) = log_files.
Proof.
  intros Hsize. unfold range.
  rewrite <- (Z2Nat.id (size - 1)) at 1 by lia.
  rewrite files_for_worker_prefix by done.
  rewrite Z2Nat.id by lia.
  set (n := Z.of_nat (length log_files)).
  pose proof (Z.div_mod (n + size - 2) (size - 1) ltac:(lia)) as Hdm.
  pose proof (Z.mod_pos_bound (n + size - 2) (size - 1) ltac:(lia)) as Hr.
  rewrite Z.min_r by nia. subst n. rewrite Nat2Z.id. by apply take_ge.
Qed.

Lemma stage1_loop fs (log_files : list string) (size : Z) (ranks : list Z) ts :
  (∀ f, f ∈ log_files → readable (fs f)) →
  for_each ranks
    (fun i =>
       let* partial := call (Base.partial_of_worker fs log_files size i) in
       modify (fun total => Base.counter_iadd total partial)) (bump ts ∅)
  = (bump (ts ++ base_tags fs (concat (Base.files_for_worker log_files size <$> ranks))) ∅,
     Returned tt).
Proof.
  intros Hall. revert ts. induction ranks as [|i ranks IH]; intros ts.
  - simpl. unfold ret. by rewrite app_nil_r.
  - simpl for_each. unfold bind at 1. unfold bind at 1, call, modify.
    unfold Base.partial_of_worker.
    rewrite analyse_all_readable
      by (intros f Hf%elem_of_py_slice; by apply Hall).
    rewrite counter_iadd_bump, IH.
    rewrite fmap_cons, concat_cons, base_tags_app. by rewrite app_assoc.
Qed.

(** In the first parallel version with at least one worker, the shares sent
    to the workers, taken in rank order, are consecutive slices that together
    are exactly the list of files: every file goes to one worker, and the
    coordinator keeps none. *)
Theorem X15_stage1_shares_partition (log_files : list string) (size : Z) :
  2 ≤ size →
  concat (Base.files_for_worker log_files size <$> range 1 size) = log_files
  ∧ length (Base.files_for_worker log_files size <$> range 1 size) = Z.to_nat (size - 1).
Proof.
  intros Hsize. split; [by apply stage1_shares_concat|].
  unfold range. by rewrite length_fmap, length_seqZ.
Qed.

Lemma X15_witness :
  2 ≤ 5 ∧
  concat (Base.files_for_worker ["a"; "b"; "c"; "d"; "e"] 5 <$> range 1 5)
  = ["a"; "b"; "c"; "d"; "e"]
  ∧ length (Base.files_for_worker ["a"; "b"; "c"; "d"; "e"] 5 <$> range 1 5)
    = Z.to_nat (5 - 1).
Proof.
  split; [lia|].
  apply (X15_stage1_shares_partition ["a"; "b"; "c"; "d"; "e"] 5). lia.
Defined.

(** When every file can be read, the first parallel version computes, with any
    number of processes, the totals of the sequential reference: both return,
    and they return the same Counter. *)
Theorem X16_parallel_totals_equal_base
    (fs : string → FileRead) (log_files : list string) (size : Z) :
  1 ≤ size →
  (∀ f, f ∈ log_files → readable (fs f)) →
  ∃ totals : Counter,
    Base.analyse_all fs log_files = Returned totals
    ∧ Base.parallel_totals fs log_files size = Returned totals.
Proof.
  intros Hsize Hall. exists (bump (base_tags fs log_files) ∅).
  split; [by apply analyse_all_readable|].
  unfold Base.parallel_totals. destruct (Z.eqb_spec size 1) as [->|Hne].
  - by apply analyse_all_readable.
  - unfold result_of. unfold bind at 1. change (∅ : Counter) with (bump [] ∅) at 1.
    rewrite stage1_loop by done. simpl.
    by rewrite stage1_shares_concat by lia.
Qed.

Lemma X16_witness :
  1 ≤ 3 ∧
  (∀ f, f ∈ ["a.log"; "a.log"; "a.log"] → readable (Demo.fs f)) ∧
  ∃ totals : Counter,
    Base.analyse_all Demo.fs ["a.log"; "a.log"; "a.log"] = Returned totals
    ∧ Base.parallel_totals Demo.fs ["a.log"; "a.log"; "a.log"] 3 = Returned totals.
Proof.
  assert (∀ f, f ∈ ["a.log"; "a.log"; "a.log"] → readable (Demo.fs f)) as Hall.
  { intros f Hf. repeat (apply elem_of_cons in Hf as [->|Hf]; [reflexivity|]).
    by apply elem_of_nil in Hf. }
  split; [lia|]. split; [exact Hall|].
  exact (X16_parallel_totals_equal_base Demo.fs ["a.log"; "a.log"; "a.log"] 3
           ltac:(lia) Hall).
Defined.

(** The sequential reference has no handler around the read: at the first
    file whose read raises, the exception leaves the loop and no count is
    returned, not even for the files read before it; on the same list
    [analyse_files] returns. *)
Theorem X17_base_aborts_at_first_failed_read
    (fs : string → FileRead) (before after : list string) (bad : string)
    (e : PyException) :
  (∀ f, f ∈ before → readable (fs f)) →
  failure (fs bad) = Some e →
  Base.analyse_all fs (before ++ bad :: after) = Raised e
  ∧ Base.analyze_log fs bad = Raised e
  ∧ ∃ counts, analyse_files fs (before ++ bad :: after) = Returned counts.
Proof.
  intros Hbefore Hbad.
  assert (Base.analyze_log fs bad = Raised e) as Hlog.
  { by rewrite analyze_log_outcome, Hbad. }
  split; [|split; [done | eexists; apply analyse_files_tags]].
  unfold Base.analyse_all, result_of. unfold bind at 1.
  rewrite for_each_app. unfold bind at 1.
  change (∅ : Counter) with (bump [] ∅) at 1.
  rewrite base_loop_readable by done.
  simpl for_each. unfold bind at 1. unfold bind at 1, call.
  by rewrite Hlog.
Qed.

Lemma X17_witness :
  (∀ f, f ∈ ["a.log"] → readable (Demo.fs f)) ∧
  failure (Demo.fs "b.log") = Some OSError ∧
  (Base.analyse_all Demo.fs (["a.log"] ++ "b.log" :: ["a.log"]) = Raised OSError
   ∧ Base.analyze_log Demo.fs "b.log" = Raised OSError
   ∧ ∃ counts, analyse_files Demo.fs (["a.log"] ++ "b.log" :: ["a.log"]) = Returned counts).
Proof.
  assert (∀ f, f ∈ ["a.log"] → readable (Demo.fs f)) as Hall.
  { intros f Hf. apply elem_of_cons in Hf as [->|Hf]; [reflexivity|].
    by apply elem_of_nil in Hf. }
  split; [exact Hall|]. split; [reflexivity|].
  exact (X17_base_aborts_at_first_failed_read Demo.fs ["a.log"] ["a.log"] "b.log" OSError
           Hall eq_refl).
Defined.

(** * Generated logs *)

Lemma string_forall_impl (p q : ascii → bool) s :
  (∀ c, p c = true → q c = true) →
  string_forall p s = true → string_forall q s = true.
Proof.
  intros Hpq. induction s as [|c s IH]; [done|]. simpl.
  intros [Hc Hs]%andb_prop. by rewrite (Hpq c Hc), IH.
Qed.

Lemma iso_char_group_char c : Generator.iso_char c = true → group_char c = true.
Proof.
  destruct c as [[] [] [] [] [] [] [] []]; intros H; try discriminate H; reflexivity.
Qed.

Lemma iso_char_not_space c :
  Generator.iso_char c = true → negb (Ascii.eqb c " ") = true.
Proof.
  destruct c as [[] [] [] [] [] [] [] []]; intros H; try discriminate H; reflexivity.
Qed.

Lemma generator_level_cases lvl :
  lvl ∈ Generator.LOG_LEVELS →
  lvl = "INFO" ∨ lvl = "WARN" ∨ lvl = "ERROR" ∨ lvl = "DEBUG".
Proof.
  unfold Generator.LOG_LEVELS. intros H.
  repeat (apply elem_of_cons in H as [H|H]; [tauto|]). by apply elem_of_nil in H.
Qed.

Lemma format_line_shape ts lvl msg :
  Generator.format_line (Generator.mkDraw ts lvl msg)
  = String "[" (ts ++ String "]" (String " " (String "["
      (lvl ++ String "]" (String " " (msg ++ String PyStr.newline ""))))))%string.
Proof. reflexivity. Qed.

Lemma match_group2_bracket s :
  LogRegex.match_group2 (String "[" s) = LogRegex.scan_group1 s.
Proof. reflexivity. Qed.

(** The pattern of the MPI analyser reads a generated line as its level. *)
Lemma line_key_format_line d :
  Generator.well_formed d → line_key (Generator.format_line d) = Some (Generator.level d).
Proof.
  intros (Hts & Hlvl & _). destruct d as [ts lvl msg]. simpl in Hts, Hlvl.
  apply (string_forall_impl _ _ _ iso_char_group_char) in Hts.
  unfold line_key. rewrite format_line_shape, match_group2_bracket.
  destruct (generator_level_cases lvl Hlvl) as [-> | [-> | [-> | ->]]].
  - rewrite (scan_group1_found ts _ "INFO" Hts); reflexivity.
  - rewrite (scan_group1_found ts _ "WARN" Hts); reflexivity.
  - rewrite (scan_group1_found ts _ "ERROR" Hts); reflexivity.
  - rewrite (scan_group1_found ts _ "DEBUG" Hts); reflexivity.
Qed.

Lemma split_space_first_field ts rest :
  no_space ts = true →
  Base.split_space (ts ++ String "]" (String " " rest))%string
  = (ts ++ "]")%string :: Base.split_space rest.
Proof.
  unfold no_space. induction ts as [|c ts IH]; [done|].
  cbn [string_forall]. intros [Hc Hts]%andb_prop. apply negb_true_iff in Hc.
  change (Base.split_space (String c ts ++ String "]" (String " " rest))%string)
    with (if Ascii.eqb c " "
          then EmptyString :: Base.split_space (ts ++ String "]" (String " " rest))%string
          else match Base.split_space (ts ++ String "]" (String " " rest))%string with
               | field :: fields => String c field :: fields
               | [] => [String c EmptyString]
               end).
  by rewrite Hc, IH.
Qed.

Lemma split_space_bracket s :
  Base.split_space (String "[" s)
  = match Base.split_space s with
    | field :: fields => String "[" field :: fields
    | [] => [String "[" EmptyString]
    end.
Proof. reflexivity. Qed.

(** The reference analyser reads a generated line as its level too. *)
Lemma line_level_format_line d :
  Generator.well_formed d →
  Base.line_level (Generator.format_line d) = Some (Generator.level d).
Proof.
  intros (Hts & Hlvl & _). destruct d as [ts lvl msg]. simpl in Hts, Hlvl.
  assert (no_space ts = true) as Hns.
  { by apply (string_forall_impl _ _ _ iso_char_not_space). }
  unfold Base.line_level.
  rewrite format_line_shape, split_space_bracket, (split_space_first_field ts _ Hns).
  by destruct (generator_level_cases lvl Hlvl) as [-> | [-> | [-> | ->]]].
Qed.

Lemma omap_format_lines (key : string → option string) draws :
  (∀ d, Generator.well_formed d → key (Generator.format_line d) = Some (Generator.level d)) →
  Forall Generator.well_formed draws →
  omap key (Generator.generate_log_file draws) = Generator.level <$> draws.
Proof.
  intros Hkey. unfold Generator.generate_log_file.
  induction 1 as [|d draws Hd _ IH]; [done|].
  rewrite !fmap_cons.
  change (omap key (Generator.format_line d :: (Generator.format_line <$> draws)))
    with (match key (Generator.format_line d) with
          | Some y => y :: omap key (Generator.format_line <$> draws)
          | None => omap key (Generator.format_line <$> draws)
          end).
  by rewrite Hkey, IH.
Qed.

Lemma occurrences_fmap_level lvl draws :
  occurrences lvl (Generator.level <$> draws)
  = Z.of_nat (length (filter (fun d => Generator.level d = lvl) draws)).
Proof.
  unfold occurrences. f_equal. induction draws as [|d draws IH]; [done|].
  rewrite fmap_cons, !filter_cons.
  destruct (decide (Generator.level d = lvl)); simpl; by rewrite IH.
Qed.

(** A file written by [generate_log_file] is counted exactly by the MPI
    analyser: the count of each level is the number of lines generated with
    that level, every line is counted, and there is no error tag. *)
Theorem X18_generated_file_counted_exactly
    (fs : string → FileRead) (fname : string) (draws : list Generator.Draw) :
  Forall Generator.well_formed draws →
  lines (fs fname) = Generator.generate_log_file draws →
  failure (fs fname) = None →
  ∃ counts : Counter,
    analyse_files fs [fname] = Returned counts
    ∧ (∀ lvl, get0 counts lvl
              = Z.of_nat (length (filter (fun d => Generator.level d = lvl) draws)))
    ∧ counts !! ERRORS_TAG = None.
Proof.
  intros Hwf Hlines Hok.
  assert (tags fs [fname] = Generator.level <$> draws) as Htags.
  { unfold tags. simpl. unfold file_keys. rewrite Hok, Hlines, !app_nil_r.
    by apply omap_format_lines; [apply line_key_format_line|]. }
  exists (bump (tags fs [fname]) ∅). split; [apply analyse_files_tags|].
  rewrite Htags. split.
  - intros lvl. by rewrite get0_bump_empty, occurrences_fmap_level.
  - rewrite bump_lookup, lookup_empty. rewrite decide_False; [done|].
    intros (d & Hd & Hin)%list_elem_of_fmap.
    rewrite Forall_forall in Hwf. destruct (Hwf d Hin) as (_ & Hlvl & _).
    rewrite <- Hd in Hlvl.
    destruct (generator_level_cases _ Hlvl) as [H|[H|[H|H]]]; discriminate H.
Qed.

Lemma X18_witness :
  Forall Generator.well_formed DemoGen.draws ∧
  lines (DemoGen.fs "node1.log") = Generator.generate_log_file DemoGen.draws ∧
  failure (DemoGen.fs "node1.log") = None ∧
  ∃ counts : Counter,
    analyse_files DemoGen.fs ["node1.log"] = Returned counts
    ∧ (∀ lvl, get0 counts lvl
              = Z.of_nat (length (filter (fun d => Generator.level d = lvl) DemoGen.draws)))
    ∧ counts !! ERRORS_TAG = None.
Proof.
  assert (Forall Generator.well_formed DemoGen.draws) as Hwf.
  { unfold DemoGen.draws, Generator.well_formed, Generator.LOG_LEVELS, Generator.MESSAGES.
    repeat (apply Forall_cons; split;
            [split; [reflexivity|]; split;
             repeat (first [by (apply elem_of_cons; left) | apply elem_of_cons; right])|]).
    apply Forall_nil_2. }
  split; [exact Hwf|]. split; [reflexivity|]. split; [reflexivity|].
  exact (X18_generated_file_counted_exactly DemoGen.fs "node1.log" DemoGen.draws
           Hwf eq_refl eq_refl).
Defined.

(** On a file written by [generate_log_file] the sequential reference and the
    MPI analyser agree: [analyze_log] on the file and [analyse_files] on the
    one-file list return the same Counter. *)
Theorem X19_reference_and_mpi_agree_on_generated_file
    (fs : string → FileRead) (fname : string) (draws : list Generator.Draw) :
  Forall Generator.well_formed draws →
  lines (fs fname) = Generator.generate_log_file draws →
  failure (fs fname) = None →
  Base.analyze_log fs fname = analyse_files fs [fname]
  ∧ ∃ counts, analyse_files fs [fname] = Returned counts.
Proof.
  intros Hwf Hlines Hok. split; [|eexists; apply analyse_files_tags].
  rewrite analyze_log_outcome, analyse_files_tags, Hok, Hlines. f_equal.
  unfold tags. simpl. unfold file_keys. rewrite Hok, Hlines, !app_nil_r.
  rewrite !omap_format_lines; auto using line_key_format_line, line_level_format_line.
Qed.

Lemma X19_witness :
  Forall Generator.well_formed DemoGen.draws ∧
  lines (DemoGen.fs "node1.log") = Generator.generate_log_file DemoGen.draws ∧
  failure (DemoGen.fs "node1.log") = None ∧
  (Base.analyze_log DemoGen.fs "node1.log" = analyse_files DemoGen.fs ["node1.log"]
   ∧ ∃ counts, analyse_files DemoGen.fs ["node1.log"] = Returned counts).
Proof.
  assert (Forall Generator.well_formed DemoGen.draws) as Hwf.
  { unfold DemoGen.draws, Generator.well_formed, Generator.LOG_LEVELS, Generator.MESSAGES.
    repeat (apply Forall_cons; split;
            [split; [reflexivity|]; split;
             repeat (first [by (apply elem_of_cons; left) | apply elem_of_cons; right])|]).
    apply Forall_nil_2. }
  split; [exact Hwf|]. split; [reflexivity|]. split; [reflexivity|].
  exact (X19_reference_and_mpi_agree_on_generated_file DemoGen.fs "node1.log" DemoGen.draws
           Hwf eq_refl eq_refl).
Defined.

(** The two analysers do not classify every line alike: a level field that
    follows the first field without a space is seen by the pattern only, and
    one that follows unbracketed text is seen by the reference only. *)
Example analysers_differ :
  line_key "[t][INFO] z" = Some "INFO" ∧ Base.line_level "[t][INFO] z" = None ∧
  line_key "x [INFO]" = None ∧ Base.line_level "x [INFO]" = Some "INFO".
Proof. repeat split; reflexivity. Qed.
